(** * Environment service of the keyshade API

    A shallow embedding of
    [apps/api/src/environment/service/environment.service.ts] together with
    the part of the Prisma schema it touches, and the properties of the
    service: default-environment bookkeeping, error paths, audit events,
    partial updates and listing.

    The database is a record of finite maps, one per table, keyed by the
    [id] column.  The service runs in a state-and-exception monad over that
    record: a call returns a result or a failure, and the world it leaves.
    The Prisma client calls the service makes are given their documented
    meaning, the [@@unique([projectId, name])] constraint, the foreign keys
    and [onDelete: SetNull] of the schema included.  Secrets and variables,
    which the service never reads, are left out.  [page] and [limit] are
    natural numbers.

    What the source leaves to the database and to the event sink is a
    parameter of the world ([Backend]): the collation that orders text,
    the order in which a query meets the rows that are equal on the sort
    column, and whether the insertion of an event, which the service
    dispatches and does not wait for, succeeds. *)

From Stdlib Require Import String Ascii.
From stdpp Require Import gmap strings list fin_maps sorting.

Local Open Scope string_scope.
Local Open Scope list_scope.

(** ** Data model (schema.prisma) *)

(** Identifiers are [cuid()] strings in the schema; only their equality and
    their freshness matter here, so they are modelled as [positive].  The
    [id] column is the key of each table below. *)
Abbreviation UserId := positive.
Abbreviation ProjectId := positive.
Abbreviation EnvironmentId := positive.

(** The project block of [enum Authority]. *)
Inductive Authority :=
  | READ_PROJECT | UPDATE_PROJECT | DELETE_PROJECT
  | CREATE_SECRET | READ_SECRET | UPDATE_SECRET | DELETE_SECRET
  | CREATE_ENVIRONMENT | READ_ENVIRONMENT | UPDATE_ENVIRONMENT
  | DELETE_ENVIRONMENT
  | CREATE_VARIABLE | READ_VARIABLE | UPDATE_VARIABLE | DELETE_VARIABLE.

#[global] Instance Authority_eq_dec : EqDecision Authority.
Proof. solve_decision. Defined.

Inductive EventSource :=
  | SRC_SECRET | SRC_VARIABLE | SRC_API_KEY | SRC_ENVIRONMENT | SRC_PROJECT
  | SRC_WORKSPACE | SRC_WORKSPACE_ROLE | SRC_USER.

Inductive EventTriggerer := TRIGGERER_USER | TRIGGERER_SYSTEM.

Inductive EventSeverity := INFO | WARN | ERROR.

(** The environment block of [enum EventType], with the neighbouring
    project block. *)
Inductive EventType :=
  | PROJECT_CREATED | PROJECT_UPDATED | PROJECT_DELETED
  | ENVIRONMENT_UPDATED | ENVIRONMENT_DELETED | ENVIRONMENT_ADDED.

(** [model User], the columns an included [lastUpdatedBy] shows. *)
Record User := mkUser {
  user_email : string;
  user_name : option string
}.

(** [model Project], the column the service reads. *)
Record Project := mkProject {
  project_name : string
}.

(** [model Environment].  Timestamps are ticks of a logical clock. *)
Record Environment := mkEnvironment {
  env_name : string;
  env_description : option string;
  env_createdAt : nat;
  env_updatedAt : nat;
  env_isDefault : bool;
  env_lastUpdatedById : option UserId;
  env_projectId : ProjectId
}.

(** An entity as the client returns it: the key and the row. *)
Abbreviation Entity A := (positive * A)%type.

(** The [metadata] JSON object the service attaches to its events. *)
Record Metadata := mkMetadata {
  md_environmentId : EnvironmentId;
  md_name : string;
  md_projectId : ProjectId;
  md_projectName : option string
}.

(** [model Event], the columns an environment event fills. *)
Record Event := mkEvent {
  ev_source : EventSource;
  ev_triggerer : EventTriggerer;
  ev_severity : EventSeverity;
  ev_type : EventType;
  ev_title : string;
  ev_metadata : Metadata;
  ev_sourceUserId : option UserId;
  ev_sourceEnvironmentId : option EnvironmentId
}.

(** What the source leaves to the database and to the event sink.
    - [collation_key]: PostgreSQL orders text by the collation of the
      database; a collation is given by its sort key, two strings being
      compared by their keys (the identity is the byte-wise collation).
    - [scan_rank skip take id]: [ORDER BY] fixes no order among rows that
      are equal on the sort column, and each [LIMIT]/[OFFSET] query may
      meet the rows in an order of its own; the rank says in which order
      the query with that [OFFSET] and [LIMIT] meets them.
    - [in_flight]: the insertions of events that have been dispatched and
      have not completed; the service does not wait for them.
    - [event_outcomes]: whether the next insertions to complete succeed;
      when the list is empty they all do. *)
Record Backend := mkBackend {
  collation_key : string → string;
  scan_rank : nat → nat → EnvironmentId → nat;
  in_flight : list Event;
  event_outcomes : list bool
}.

(** The database together with what surrounds it: the callers' effective
    authorities per project, the identifiers handed out so far, the
    clock and the backend. *)
Record World := mkWorld {
  users : gmap UserId User;
  projects : gmap ProjectId Project;
  grants : gmap (UserId * ProjectId) (list Authority);
  environments : gmap EnvironmentId Environment;
  issued : gset EnvironmentId;
  clock : nat;
  events : list Event;
  backend : Backend
}.

Definition set_environments
    (f : gmap EnvironmentId Environment → gmap EnvironmentId Environment)
    (w : World) : World :=
  mkWorld (users w) (projects w) (grants w) (f (environments w))
          (issued w) (clock w) (events w) (backend w).

Definition set_events (f : list Event → list Event) (w : World) : World :=
  mkWorld (users w) (projects w) (grants w) (environments w)
          (issued w) (clock w) (f (events w)) (backend w).

Definition tick (w : World) : World :=
  mkWorld (users w) (projects w) (grants w) (environments w)
          (issued w) (S (clock w)) (events w) (backend w).

Definition issue (i : EnvironmentId) (w : World) : World :=
  mkWorld (users w) (projects w) (grants w) (environments w)
          ({[ i ]} ∪ issued w) (clock w) (events w) (backend w).

Definition set_in_flight (f : list Event → list Event) (w : World) : World :=
  mkWorld (users w) (projects w) (grants w) (environments w)
          (issued w) (clock w) (events w)
          (mkBackend (collation_key (backend w)) (scan_rank (backend w))
             (f (in_flight (backend w))) (event_outcomes (backend w))).

(** ** Failures and the monad of the service *)

(** [ConflictException] is [Conflict], [BadRequestException] is
    [InvalidOperation]; [NotFound] and [Forbidden] come from the authority
    resolver; every failure raised by the Prisma client itself (constraint
    violation, record not found, invalid query) is [InternalError]. *)
Inductive Failure :=
  | NotFound | Forbidden | Conflict | InvalidOperation | InternalError.

Inductive Result (A : Type) :=
  | Ok (a : A)
  | Err (e : Failure).
Arguments Ok {A} a.
Arguments Err {A} e.

(** A computation reads and writes the world and may throw. *)
Definition M (A : Type) : Type := World → Result A * World.

#[global] Instance M_ret : MRet M := λ A a w, (Ok a, w).
#[global] Instance M_bind : MBind M := λ A B k m w,
  match m w with
  | (Ok a, w') => k a w'
  | (Err e, w') => (Err e, w')
  end.

Definition throw {A} (e : Failure) : M A := λ w, (Err e, w).
Definition gets {A} (f : World → A) : M A := λ w, (Ok (f w), w).
Definition modify (f : World → World) : M unit := λ w, (Ok tt, f w).

(** [if (!b) throw e] and [if (b) throw e]. *)
Definition unless (b : bool) (e : Failure) : M unit :=
  if b then mret tt else throw e.

Definition throw_if (b : bool) (e : Failure) : M unit :=
  if b then throw e else mret tt.

(** ** JavaScript values *)

(** Truthiness of a string: only the empty string is falsy. *)
Definition truthy (s : string) : bool :=
  match s with EmptyString => false | String _ _ => true end.

(** ** The Prisma client *)

Definition backslash : ascii := "092"%char.

(** [like pattern s]: PostgreSQL's [s LIKE pattern], case-sensitive.  [%]
    stands for any run of characters, [_] for any one character, and a
    backslash takes the character after it literally.  (A pattern ending
    in a lone backslash is an error in PostgreSQL; the patterns of
    [contains] end in [%].) *)
Fixpoint like (pattern s : string) {struct pattern} : bool :=
  match pattern with
  | EmptyString =>
      match s with EmptyString => true | String _ _ => false end
  | String c pattern' =>
      if Ascii.eqb c "%" then
        (fix skip (s : string) : bool :=
           like pattern' s ||
           match s with
           | EmptyString => false
           | String _ s' => skip s'
           end) s
      else if Ascii.eqb c "_" then
        match s with
        | EmptyString => false
        | String _ s' => like pattern' s'
        end
      else if Ascii.eqb c backslash then
        match pattern' with
        | EmptyString => false
        | String d pattern'' =>
            match s with
            | EmptyString => false
            | String e s' => Ascii.eqb d e && like pattern'' s'
            end
        end
      else
        match s with
        | EmptyString => false
        | String e s' => Ascii.eqb c e && like pattern' s'
        end
  end.

(** The filter [name: { contains: search }]: the client sends the search
    string as it is between two [%], so that [%], [_] and the backslash in
    it keep their meaning in the pattern. *)
Definition name_contains (search name : string) : bool :=
  like ("%" +:+ search +:+ "%") name.

(** [contains sub s]: [sub] is a substring of [s], case-sensitive.  This
    is the filter as the specification words it, to be compared with
    [name_contains]. *)
Fixpoint contains (sub s : string) : bool :=
  String.prefix sub s ||
  match s with
  | EmptyString => false
  | String _ s' => contains sub s'
  end.

(** The characters with a meaning of their own in a [LIKE] pattern. *)
Definition wildcard (c : ascii) : bool :=
  Ascii.eqb c "%" || Ascii.eqb c "_" || Ascii.eqb c backslash.

Fixpoint wildcard_free (s : string) : bool :=
  match s with
  | EmptyString => true
  | String c s' => negb (wildcard c) && wildcard_free s'
  end.

(** The rows of the environment table with their keys. *)
Definition rows (w : World) : list (Entity Environment) :=
  map_to_list (environments w).

(** Rows of one project carrying one name, the key [(projectId, name)] of
    the [@@unique] constraint. *)
Definition named (name : string) (projectId : ProjectId)
    (r : Entity Environment) : Prop :=
  env_name r.2 = name ∧ env_projectId r.2 = projectId.

#[global] Instance named_dec name projectId r :
  Decision (named name projectId r).
Proof. unfold named. apply _. Defined.

(** The scalar columns [orderBy] accepts. *)
Inductive SortField :=
  | by_id | by_name | by_description | by_createdAt | by_updatedAt
  | by_isDefault | by_lastUpdatedById | by_projectId.

Inductive SortOrder := asc | desc.

Definition parse_field (sort : string) : option SortField :=
  if String.eqb sort "id" then Some by_id
  else if String.eqb sort "name" then Some by_name
  else if String.eqb sort "description" then Some by_description
  else if String.eqb sort "createdAt" then Some by_createdAt
  else if String.eqb sort "updatedAt" then Some by_updatedAt
  else if String.eqb sort "isDefault" then Some by_isDefault
  else if String.eqb sort "lastUpdatedById" then Some by_lastUpdatedById
  else if String.eqb sort "projectId" then Some by_projectId
  else None.

Definition parse_order (order : string) : option SortOrder :=
  if String.eqb order "asc" then Some asc
  else if String.eqb order "desc" then Some desc
  else None.

(** The names of the columns and of the directions, as the schema and
    the client have them. *)
Definition column (f : SortField) : string :=
  match f with
  | by_id => "id"
  | by_name => "name"
  | by_description => "description"
  | by_createdAt => "createdAt"
  | by_updatedAt => "updatedAt"
  | by_isDefault => "isDefault"
  | by_lastUpdatedById => "lastUpdatedById"
  | by_projectId => "projectId"
  end.

Definition direction (o : SortOrder) : string :=
  match o with
  | asc => "asc"
  | desc => "desc"
  end.

Definition compare_bool (a b : bool) : comparison :=
  match a, b with
  | false, true => Lt
  | true, false => Gt
  | _, _ => Eq
  end.

(** [NULL] sorts after every value in ascending order. *)
Definition compare_option {A} (cmp : A → A → comparison)
    (a b : option A) : comparison :=
  match a, b with
  | Some x, Some y => cmp x y
  | Some _, None => Lt
  | None, Some _ => Gt
  | None, None => Eq
  end.

(** Text is compared by the sort keys of the collation. *)
Definition collate (key : string → string) (a b : string) : comparison :=
  String.compare (key a) (key b).

Definition field_compare (key : string → string) (f : SortField)
    (a b : Entity Environment) : comparison :=
  match f with
  | by_id => Pos.compare a.1 b.1
  | by_name => collate key (env_name a.2) (env_name b.2)
  | by_description =>
      compare_option (collate key)
        (env_description a.2) (env_description b.2)
  | by_createdAt => Nat.compare (env_createdAt a.2) (env_createdAt b.2)
  | by_updatedAt => Nat.compare (env_updatedAt a.2) (env_updatedAt b.2)
  | by_isDefault => compare_bool (env_isDefault a.2) (env_isDefault b.2)
  | by_lastUpdatedById =>
      compare_option Pos.compare
        (env_lastUpdatedById a.2) (env_lastUpdatedById b.2)
  | by_projectId => Pos.compare (env_projectId a.2) (env_projectId b.2)
  end.

(** [a] may stand before [b] in a list ordered by [f] in direction [o]. *)
Definition ordered (key : string → string) (f : SortField) (o : SortOrder)
    (a b : Entity Environment) : Prop :=
  match o with
  | asc => field_compare key f a b ≠ Gt
  | desc => field_compare key f b a ≠ Gt
  end.

#[global] Instance comparison_eq_dec : EqDecision comparison.
Proof. solve_decision. Defined.

#[global] Instance ordered_dec key f o : RelDecision (ordered key f o).
Proof. intros a b. unfold ordered. destruct o; apply _. Defined.

(** The order in which a query meets the rows: by rank, rows of equal rank
    in the order of the table. *)
Definition met_before (rank : EnvironmentId → nat)
    (a b : Entity Environment) : Prop :=
  (rank a.1 ≤ rank b.1)%nat.

#[global] Instance met_before_dec rank : RelDecision (met_before rank).
Proof. intros a b. unfold met_before. apply _. Defined.

(** The [where] clause of the listing. *)
Definition listed (projectId : ProjectId) (search : string)
    (r : Entity Environment) : Prop :=
  env_projectId r.2 = projectId ∧ name_contains search (env_name r.2) = true.

#[global] Instance listed_dec projectId search r :
  Decision (listed projectId search r).
Proof. unfold listed. apply _. Defined.

(** [include: { lastUpdatedBy: true }] *)
Definition include_lastUpdatedBy (w : World) (r : Entity Environment)
    : Entity Environment * option (Entity User) :=
  (r, uid ← env_lastUpdatedById r.2; u ← users w !! uid; Some (uid, u)).

(** The statements the service batches into [$transaction]. *)
Record CreateData := mkCreateData {
  cd_name : string;
  cd_description : option string;
  cd_isDefault : option bool;
  cd_projectId : ProjectId;
  cd_lastUpdatedById : UserId
}.

Record UpdateData := mkUpdateData {
  ud_name : option string;
  ud_description : option string;
  ud_isDefault : bool;
  ud_lastUpdatedById : UserId
}.

Inductive PrismaOp :=
  | EnvironmentUpdateMany (where_projectId : ProjectId) (isDefault : bool)
  | EnvironmentCreate (data : CreateData)
  | EnvironmentUpdate (where_id : EnvironmentId) (data : UpdateData).

Inductive OpResult :=
  | BatchPayload (count : nat)
  | Row (e : Entity Environment).

Module prisma.

(** [environment.findFirst({ where: { name, projectId } })] *)
Definition environment_findFirst (name : string) (projectId : ProjectId)
    : M (option (Entity Environment)) :=
  gets (λ w, head (filter (named name projectId) (rows w))).

(** [environment.count({ where: { projectId } })] *)
Definition environment_count (projectId : ProjectId) : M nat :=
  gets (λ w, length (filter (λ r, env_projectId r.2 = projectId) (rows w))).

(** [environment.updateMany({ where: { projectId }, data: { isDefault } })];
    [@updatedAt] columns of the rows written are refreshed. *)
Definition updateMany_row (projectId : ProjectId) (isDefault : bool)
    (now : nat) (e : Environment) : Environment :=
  if decide (env_projectId e = projectId)
  then mkEnvironment (env_name e) (env_description e) (env_createdAt e)
         now isDefault (env_lastUpdatedById e) (env_projectId e)
  else e.

Definition environment_updateMany (projectId : ProjectId)
    (isDefault : bool) : M OpResult :=
  n ← environment_count projectId;
  now ← gets clock;
  modify (set_environments (fmap (updateMany_row projectId isDefault now)));;
  modify tick;;
  mret (BatchPayload n).

(** Another row than [self] already holds [(projectId, name)]. *)
Definition unique_violation (self : option EnvironmentId) (name : string)
    (projectId : ProjectId) (w : World) : bool :=
  bool_decide (Exists (λ r, named name projectId r ∧ Some r.1 ≠ self)
                      (rows w)).

(** The row [create] inserts: [isDefault] falls back to [@default(false)],
    both timestamps are the current time. *)
Definition create_row (data : CreateData) (now : nat) : Environment :=
  mkEnvironment (cd_name data) (cd_description data) now now
    (default false (cd_isDefault data)) (Some (cd_lastUpdatedById data))
    (cd_projectId data).

(** [environment.create({ data })]: both [connect]s need their target,
    the [@@unique([projectId, name])] constraint is checked, the key is
    a fresh [cuid()]. *)
Definition environment_create (data : CreateData) : M OpResult :=
  w ← gets (λ w, w);
  unless (bool_decide (is_Some (projects w !! cd_projectId data)))
    InternalError;;
  unless (bool_decide (is_Some (users w !! cd_lastUpdatedById data)))
    InternalError;;
  unless (negb (unique_violation None (cd_name data) (cd_projectId data) w))
    InternalError;;
  let i := fresh (dom (environments w) ∪ issued w) in
  let e := create_row data (clock w) in
  modify (set_environments (insert i e));;
  modify (issue i);;
  modify tick;;
  mret (Row (i, e)).

(** The row [update] writes over [old]: a field whose value is [undefined]
    is left as it is, [@updatedAt] is refreshed. *)
Definition update_row (old : Environment) (data : UpdateData) (now : nat)
    : Environment :=
  mkEnvironment (default (env_name old) (ud_name data))
    (from_option Some (env_description old) (ud_description data))
    (env_createdAt old) now (ud_isDefault data)
    (Some (ud_lastUpdatedById data)) (env_projectId old).

(** [environment.update({ where: { id }, data })]: the row must exist, the
    user written to [lastUpdatedById] too, and the new name must not be
    held by another row of the project. *)
Definition environment_update (id : EnvironmentId) (data : UpdateData)
    : M OpResult :=
  w ← gets (λ w, w);
  match environments w !! id with
  | None => throw InternalError
  | Some old =>
      unless (bool_decide (is_Some (users w !! ud_lastUpdatedById data)))
        InternalError;;
      let e := update_row old data (clock w) in
      unless (negb (unique_violation (Some id) (env_name e)
                      (env_projectId old) w))
        InternalError;;
      modify (set_environments (insert id e));;
      modify tick;;
      mret (Row (id, e))
  end.

(** [Event.sourceEnvironment] is [onDelete: SetNull]. *)
Definition forget_environment (id : EnvironmentId) (ev : Event) : Event :=
  if decide (ev_sourceEnvironmentId ev = Some id)
  then mkEvent (ev_source ev) (ev_triggerer ev) (ev_severity ev)
         (ev_type ev) (ev_title ev) (ev_metadata ev) (ev_sourceUserId ev)
         None
  else ev.

(** [environment.delete({ where: { id } })] *)
Definition environment_delete (id : EnvironmentId)
    : M (Entity Environment) :=
  w ← gets (λ w, w);
  match environments w !! id with
  | None => throw InternalError
  | Some old =>
      modify (set_environments (delete id));;
      modify (set_events (fmap (forget_environment id)));;
      mret (id, old)
  end.

(** The rows of the listing as the query with this [skip] and [take]
    meets them. *)
Definition scanned (projectId : ProjectId) (search : string)
    (skip take : nat) (w : World) : list (Entity Environment) :=
  merge_sort (met_before (scan_rank (backend w) skip take))
    (filter (listed projectId search) (rows w)).

(** [environment.findMany({ where: { projectId, name: { contains } },
    include, skip, take, orderBy: { [sort]: order } })]: the rows that
    match are ordered by the column under the collation of the database,
    then [skip] of them are passed over and at most [take] returned.  An
    unknown column or direction is rejected. *)
Definition environment_findMany (projectId : ProjectId) (search : string)
    (skip take : nat) (sort order : string)
    : M (list (Entity Environment * option (Entity User))) :=
  match parse_field sort, parse_order order with
  | Some f, Some o =>
      gets (λ w,
        include_lastUpdatedBy w <$>
          firstn take
            (skipn skip
               (merge_sort (ordered (collation_key (backend w)) f o)
                  (scanned projectId search skip take w))))
  | _, _ => throw InternalError
  end.

Definition run_op (op : PrismaOp) : M OpResult :=
  match op with
  | EnvironmentUpdateMany projectId isDefault =>
      environment_updateMany projectId isDefault
  | EnvironmentCreate data => environment_create data
  | EnvironmentUpdate id data => environment_update id data
  end.

Fixpoint run_ops (ops : list PrismaOp) : M (list OpResult) :=
  match ops with
  | [] => mret []
  | op :: ops' => r ← run_op op; rs ← run_ops ops'; mret (r :: rs)
  end.

(** [$transaction(ops)]: the statements run in order; when one fails the
    writes of the earlier ones are rolled back. *)
Definition transaction (ops : list PrismaOp) : M (list OpResult) :=
  λ w, match run_ops ops w with
       | (Ok rs, w') => (Ok rs, w')
       | (Err e, _) => (Err e, w)
       end.

End prisma.

(** ** Collaborators of the service *)

(** The effective authority set of a user on a project. *)
Definition effective (w : World) (userId : UserId) (projectId : ProjectId)
    : list Authority :=
  default [] (grants w !! (userId, projectId)).

(** Modelled from the spec: [getProjectWithAuthority]
    (common/get-project-with-authority.ts is not among the sources).  It
    loads the project, fails with [NotFound] when it does not exist and with
    [Forbidden] when the required authority is absent from the caller's
    effective set; it is read-only. *)
Definition getProjectWithAuthority (userId : UserId) (projectId : ProjectId)
    (authority : Authority) : M (Entity Project) :=
  w ← gets (λ w, w);
  match projects w !! projectId with
  | None => throw NotFound
  | Some p =>
      unless (bool_decide (authority ∈ effective w userId projectId))
        Forbidden;;
      mret (projectId, p)
  end.

(** Modelled from the spec: [getEnvironmentWithAuthority]
    (common/get-environment-with-authority.ts is not among the sources).
    Same contract, for an environment; the authority is looked up on the
    project the environment belongs to. *)
Definition getEnvironmentWithAuthority (userId : UserId)
    (environmentId : EnvironmentId) (authority : Authority)
    : M (Entity Environment) :=
  w ← gets (λ w, w);
  match environments w !! environmentId with
  | None => throw NotFound
  | Some e =>
      unless (bool_decide
                (authority ∈ effective w userId (env_projectId e)))
        Forbidden;;
      mret (environmentId, e)
  end.

(** The argument object of [createEvent]. *)
Record EventData := mkEventData {
  triggeredBy : Entity User;
  entity : option (Entity Environment);
  type : EventType;
  source : EventSource;
  title : string;
  metadata : Metadata
}.

(** The row [createEvent] writes for [data]. *)
Definition event_row (data : EventData) : Event :=
  mkEvent (source data) TRIGGERER_USER INFO (type data) (title data)
    (metadata data) (Some (triggeredBy data).1) (fst <$> entity data).

(** The world after [createEvent] has been called for [data]: the
    insertion of the row has been dispatched, it has not completed. *)
Definition dispatched (data : EventData) (w : World) : World :=
  set_in_flight (λ q, q ++ [event_row data]) w.

(** Modelled from the spec: [createEvent] (common/create-event.ts is not
    among the sources).  It inserts one Event row, of severity [INFO],
    triggered by the user, scoped to the entity when one is given.  The
    service calls it without [await]: the call returns while the insertion
    is in flight, and a failure of the insertion is logged and swallowed,
    the caller never sees it. *)
Definition createEvent (data : EventData) : M unit :=
  modify (dispatched data).

(** The foreign keys of [Event.sourceUser] and
    [Event.sourceEnvironment]: a reference is to a row of the table. *)
Definition reference_ok (ev : Event) (w : World) : bool :=
  match ev_sourceUserId ev with
  | Some u => bool_decide (is_Some (users w !! u))
  | None => true
  end &&
  match ev_sourceEnvironmentId ev with
  | Some i => bool_decide (is_Some (environments w !! i))
  | None => true
  end.

(** The insertion of [ev] succeeds when it completes in [w]. *)
Definition event_delivered (ev : Event) (w : World) : bool :=
  match event_outcomes (backend w) with
  | [] => true
  | outcome :: _ => outcome
  end && reference_ok ev w.

(** The oldest insertion in flight completes: the row is appended to the
    log when the insertion succeeds, and the log is left as it is when it
    fails. *)
Definition settle (w : World) : World :=
  match in_flight (backend w) with
  | [] => w
  | ev :: rest =>
      mkWorld (users w) (projects w) (grants w) (environments w)
        (issued w) (clock w)
        (if event_delivered ev w then events w ++ [ev] else events w)
        (mkBackend (collation_key (backend w)) (scan_rank (backend w))
           rest (tail (event_outcomes (backend w))))
  end.

Fixpoint settle_n (n : nat) (w : World) : World :=
  match n with
  | O => w
  | S n' => settle_n n' (settle w)
  end.

(** The world once every insertion in flight has completed. *)
Definition settled (w : World) : World :=
  settle_n (length (in_flight (backend w))) w.

(** ** The service (environment.service.ts) *)

Record CreateEnvironment := mkCreateEnvironment {
  ce_name : string;
  ce_description : option string;
  ce_isDefault : option bool
}.

(** [None] is an absent ([undefined]) field.  For [isDefault] the source
    treats [null] like [undefined] everywhere, so [None] stands for both. *)
Record UpdateEnvironment := mkUpdateEnvironment {
  ue_name : option string;
  ue_description : option string;
  ue_isDefault : option bool
}.

Definition environmentExists (name : string) (projectId : ProjectId)
    : M (option (Entity Environment)) :=
  prisma.environment_findFirst name projectId.

Definition makeAllNonDefault (projectId : ProjectId) : PrismaOp :=
  EnvironmentUpdateMany projectId false.

(** [result[result.length - 1]], read as an environment. *)
Definition last_row (result : list OpResult) : M (Entity Environment) :=
  match last result with
  | Some (Row e) => mret e
  | _ => throw InternalError
  end.

Definition createEnvironment (user : Entity User) (dto : CreateEnvironment)
    (projectId : ProjectId) : M (Entity Environment) :=
  project ← getProjectWithAuthority user.1 projectId CREATE_ENVIRONMENT;
  existing ← environmentExists (ce_name dto) projectId;
  throw_if (bool_decide (is_Some existing)) Conflict;;
  let ops :=
    (if default false (ce_isDefault dto)
     then [makeAllNonDefault projectId] else []) ++
    [EnvironmentCreate
       (mkCreateData (ce_name dto) (ce_description dto) (ce_isDefault dto)
          projectId user.1)] in
  result ← prisma.transaction ops;
  environment ← last_row result;
  createEvent
    (mkEventData user (Some environment) ENVIRONMENT_ADDED SRC_ENVIRONMENT
       "Environment created"
       (mkMetadata environment.1 (env_name environment.2) projectId
          (Some (project_name project.2))));;
  mret environment.

(** Lines 102-162 of [updateEnvironment]: everything up to the
    [await this.prisma.$transaction(ops)], that is the reads, the guards and
    the construction of [ops]. *)
Definition updateEnvironment_ops (user : Entity User)
    (dto : UpdateEnvironment) (environmentId : EnvironmentId)
    : M (list PrismaOp) :=
  environment ←
    getEnvironmentWithAuthority user.1 environmentId UPDATE_ENVIRONMENT;
  conflict ←
    match ue_name dto with
    | Some name =>
        if truthy name then
          if decide (env_name environment.2 = name) then mret true
          else
            existing ← environmentExists name (env_projectId environment.2);
            mret (bool_decide (is_Some existing))
        else mret false
    | None => mret false
    end;
  throw_if conflict Conflict;;
  count ← prisma.environment_count (env_projectId environment.2);
  throw_if (bool_decide (ue_isDefault dto = Some false)
            && env_isDefault environment.2
            && bool_decide (count = 1))
    InvalidOperation;;
  mret
    ((if default false (ue_isDefault dto)
      then [makeAllNonDefault (env_projectId environment.2)] else []) ++
     [EnvironmentUpdate environmentId
        (mkUpdateData (ue_name dto) (ue_description dto)
           (default (env_isDefault environment.2) (ue_isDefault dto))
           user.1)]).

(** Lines 164-183: the transaction, the event and the result. *)
Definition updateEnvironment_commit (user : Entity User)
    (ops : list PrismaOp) : M (Entity Environment) :=
  result ← prisma.transaction ops;
  updatedEnvironment ← last_row result;
  createEvent
    (mkEventData user (Some updatedEnvironment) ENVIRONMENT_UPDATED
       SRC_ENVIRONMENT "Environment updated"
       (mkMetadata updatedEnvironment.1 (env_name updatedEnvironment.2)
          (env_projectId updatedEnvironment.2) None));;
  mret updatedEnvironment.

Definition updateEnvironment (user : Entity User) (dto : UpdateEnvironment)
    (environmentId : EnvironmentId) : M (Entity Environment) :=
  ops ← updateEnvironment_ops user dto environmentId;
  updateEnvironment_commit user ops.

Definition getEnvironment (user : Entity User)
    (environmentId : EnvironmentId) : M (Entity Environment) :=
  getEnvironmentWithAuthority user.1 environmentId READ_ENVIRONMENT.

Definition deleteEnvironment (user : Entity User)
    (environmentId : EnvironmentId) : M unit :=
  environment ←
    getEnvironmentWithAuthority user.1 environmentId DELETE_ENVIRONMENT;
  let projectId := env_projectId environment.2 in
  throw_if (env_isDefault environment.2) InvalidOperation;;
  prisma.environment_delete environmentId;;
  createEvent
    (mkEventData user None ENVIRONMENT_DELETED SRC_ENVIRONMENT
       "Environment deleted"
       (mkMetadata environment.1 (env_name environment.2) projectId None)).

Definition getEnvironmentsOfProject (user : Entity User)
    (projectId : ProjectId) (page limit : nat) (sort order search : string)
    : M (list (Entity Environment * option (Entity User))) :=
  getProjectWithAuthority user.1 projectId READ_ENVIRONMENT;;
  prisma.environment_findMany projectId search (page * limit) limit
    sort order.

(** ** Notions used in the statements *)

(** The world after [makeAllNonDefault projectId]. *)
Definition cleared (projectId : ProjectId) (w : World) : World :=
  tick (set_environments
          (fmap (prisma.updateMany_row projectId false (clock w))) w).

(** The world a statement list leaves when the optional
    [makeAllNonDefault] comes first. *)
Definition base (clear : bool) (projectId : ProjectId) (w : World) : World :=
  if clear then cleared projectId w else w.

Definition create_data (user : Entity User) (dto : CreateEnvironment)
    (projectId : ProjectId) : CreateData :=
  mkCreateData (ce_name dto) (ce_description dto) (ce_isDefault dto)
    projectId user.1.

Definition added_event (user : Entity User) (environment : Entity Environment)
    (projectId : ProjectId) (p : Project) : EventData :=
  mkEventData user (Some environment) ENVIRONMENT_ADDED SRC_ENVIRONMENT
    "Environment created"
    (mkMetadata environment.1 (env_name environment.2) projectId
       (Some (project_name p))).

(** The two guards of [updateEnvironment], as the source evaluates them on
    the environment [old] it has loaded. *)
Definition name_conflict (dto : UpdateEnvironment) (old : Environment)
    (w : World) : bool :=
  match ue_name dto with
  | Some name =>
      truthy name &&
      (bool_decide (env_name old = name) ||
       bool_decide (is_Some (head (filter (named name (env_projectId old))
                                     (rows w)))))
  | None => false
  end.

Definition last_environment_guard (dto : UpdateEnvironment)
    (old : Environment) (w : World) : bool :=
  bool_decide (ue_isDefault dto = Some false) && env_isDefault old &&
  bool_decide (length (filter (λ r, env_projectId r.2 = env_projectId old)
                         (rows w)) = 1).

Definition update_data (user : Entity User) (dto : UpdateEnvironment)
    (old : Environment) : UpdateData :=
  mkUpdateData (ue_name dto) (ue_description dto)
    (default (env_isDefault old) (ue_isDefault dto)) user.1.

Definition update_ops (user : Entity User) (dto : UpdateEnvironment)
    (id : EnvironmentId) (old : Environment) : list PrismaOp :=
  (if default false (ue_isDefault dto)
   then [makeAllNonDefault (env_projectId old)] else []) ++
  [EnvironmentUpdate id (update_data user dto old)].

Definition updated_event (user : Entity User)
    (environment : Entity Environment) : EventData :=
  mkEventData user (Some environment) ENVIRONMENT_UPDATED SRC_ENVIRONMENT
    "Environment updated"
    (mkMetadata environment.1 (env_name environment.2)
       (env_projectId environment.2) None).

Definition deleted_event (user : Entity User)
    (environment : Entity Environment) : EventData :=
  mkEventData user None ENVIRONMENT_DELETED SRC_ENVIRONMENT
    "Environment deleted"
    (mkMetadata environment.1 (env_name environment.2)
       (env_projectId environment.2) None).

Definition members (w : World) (projectId : ProjectId)
    : list (Entity Environment) :=
  filter (λ r, env_projectId r.2 = projectId) (rows w).

Definition defaults (w : World) (projectId : ProjectId)
    : list (Entity Environment) :=
  filter (λ r, env_projectId r.2 = projectId ∧ env_isDefault r.2 = true)
    (rows w).

Inductive Call :=
  | CreateCall (user : Entity User) (dto : CreateEnvironment)
      (projectId : ProjectId)
  | UpdateCall (user : Entity User) (dto : UpdateEnvironment)
      (environmentId : EnvironmentId)
  | DeleteCall (user : Entity User) (environmentId : EnvironmentId).

(** The world a call leaves, whether it returned or threw. *)
Definition perform (c : Call) (w : World) : World :=
  match c with
  | CreateCall user dto projectId => (createEnvironment user dto projectId w).2
  | UpdateCall user dto id => (updateEnvironment user dto id w).2
  | DeleteCall user id => (deleteEnvironment user id w).2
  end.

Definition perform_all (cs : list Call) (w : World) : World :=
  foldl (λ w c, perform c w) w cs.

Definition default_in (w : World) (projectId : ProjectId)
    (i : EnvironmentId) : Prop :=
  ∃ e, environments w !! i = Some e ∧ env_projectId e = projectId ∧
       env_isDefault e = true.


Definition at_most_one_default (w : World) : Prop :=
  ∀ projectId, (length (defaults w projectId) ≤ 1)%nat.







(** The event row of an environment mutation. *)
Definition environment_event (type : EventType) (title : string)
    (user : Entity User) (environment : Entity Environment)
    (projectId : ProjectId) (projectName : option string)
    (reference : option EnvironmentId) : Event :=
  mkEvent SRC_ENVIRONMENT TRIGGERER_USER INFO type title
    (mkMetadata environment.1 (env_name environment.2) projectId projectName)
    (Some user.1) reference.

(** ** Sample worlds *)

Definition alice : Entity User :=
  (1%positive, mkUser "alice@example.com" (Some "Alice")).

(** Bob is a user without any authority. *)
Definition bob : Entity User :=
  (2%positive, mkUser "bob@example.com" None).

(** One project, no environment yet; Alice holds the four environment
    authorities on it. *)
Definition world0 : World :=
  mkWorld {[ 1%positive := alice.2; 2%positive := bob.2 ]}
    {[ 7%positive := mkProject "backend" ]}
    {[ (1%positive, 7%positive) :=
         [CREATE_ENVIRONMENT; READ_ENVIRONMENT; UPDATE_ENVIRONMENT;
          DELETE_ENVIRONMENT] ]}
    ∅ ∅ 0 [] (mkBackend id (λ _ _ _, 0%nat) [] []).

Definition dev_dto : CreateEnvironment :=
  mkCreateEnvironment "dev" (Some "development") (Some true).

Definition staging_dto : CreateEnvironment :=
  mkCreateEnvironment "staging" None (Some false).

(** [world1]: the project has its default environment "dev" (key 1);
    [world2]: and a regular environment "staging" (key 2). *)
Definition world1 : World :=
  perform (CreateCall alice dev_dto 7%positive) world0.
Definition world2 : World :=
  perform (CreateCall alice staging_dto 7%positive) world1.

Definition dev_row : Environment :=
  mkEnvironment "dev" (Some "development") 1 1 true (Some 1%positive)
    7%positive.

Definition staging_row : Environment :=
  mkEnvironment "staging" None 2 2 false (Some 1%positive) 7%positive.

(** The world [w] on another backend. *)
Definition on_backend (b : Backend) (w : World) : World :=
  mkWorld (users w) (projects w) (grants w) (environments w) (issued w)
          (clock w) (events w) b.

(** [world1] when no insertion is in flight and the next one to complete
    fails. *)
Definition world1_sink_down : World :=
  on_backend (mkBackend id (λ _ _ _, 0%nat) [] [false]) world1.

(** [world_columns]: three environments that every column orders in its
    own way.  "zeta" (key 1) was created first, as the default, then
    "Alpha" (key 2) and "mid" (key 3); "Alpha" was then made the default,
    and "zeta" and "mid" were given a description, in this order. *)
Definition world_columns : World :=
  perform_all
    [CreateCall alice (mkCreateEnvironment "zeta" None (Some true))
       7%positive;
     CreateCall alice (mkCreateEnvironment "Alpha" (Some "first") None)
       7%positive;
     CreateCall alice (mkCreateEnvironment "mid" None None) 7%positive;
     UpdateCall alice (mkUpdateEnvironment None None (Some true)) 2%positive;
     UpdateCall alice (mkUpdateEnvironment None (Some "base") None)
       1%positive;
     UpdateCall alice (mkUpdateEnvironment None (Some "about") None)
       3%positive]
    world0.

(** A collation that tells upper case from lower case, and places the
    upper case letters after all the lower case ones: its sort key swaps
    the two cases. *)
Definition swap_case_char (c : ascii) : ascii :=
  let n := nat_of_ascii c in
  if (65 <=? n)%nat && (n <=? 90)%nat then ascii_of_nat (n + 32)
  else if (97 <=? n)%nat && (n <=? 122)%nat then ascii_of_nat (n - 32)
  else c.

Fixpoint swap_case (s : string) : string :=
  match s with
  | EmptyString => EmptyString
  | String c s' => String (swap_case_char c) (swap_case s')
  end.

(** A database that meets the rows of a table in the order of their keys
    when it computes a first page, and in the reverse order when it
    computes a later one. *)
Definition turning_rank (skip take : nat) (i : EnvironmentId) : nat :=
  if (skip =? 0)%nat then Pos.to_nat i else (100 - Pos.to_nat i)%nat.

(** [world_blank]: a project whose default environment has the empty name
    (key 1), created through the service, and a second environment
    "staging" (key 2). *)
Definition blank_dto : CreateEnvironment :=
  mkCreateEnvironment "" None (Some true).

Definition world_blank : World :=
  perform (CreateCall alice staging_dto 7%positive)
    (perform (CreateCall alice blank_dto 7%positive) world0).

Definition blank_row : Environment :=
  mkEnvironment "" None 1 1 true (Some 1%positive) 7%positive.

Definition rename_blank : UpdateEnvironment :=
  mkUpdateEnvironment (Some "") None None.

(** ** Further notions *)

(** The project a call works on: the one named by [createEnvironment], the
    one of the environment named by the two others. *)
Definition call_project (c : Call) (w : World) : option ProjectId :=
  match c with
  | CreateCall _ _ projectId => Some projectId
  | UpdateCall _ _ id | DeleteCall _ id =>
      env_projectId <$> environments w !! id
  end.

(** The environment a call names. *)
Definition call_target (c : Call) : option EnvironmentId :=
  match c with
  | CreateCall _ _ _ => None
  | UpdateCall _ _ id | DeleteCall _ id => Some id
  end.

(** No two environments of a project carry the same name. *)
Definition unique_names (w : World) : Prop :=
  ∀ i j ei ej,
    environments w !! i = Some ei → environments w !! j = Some ej →
    env_projectId ei = env_projectId ej → env_name ei = env_name ej →
    i = j.

(** The rows of a listing call, none when it throws. *)
Definition page_of {A} (r : Result (list A) * World) : list A :=
  match r.1 with
  | Ok l => l
  | Err _ => []
  end.

(** Dan may create environments in the project but has no row in the user
    table; [world3] is [world2] with his authority. *)
Definition dan : Entity User :=
  (4%positive, mkUser "dan@example.com" None).

Definition world3 : World :=
  mkWorld (users world2) (projects world2)
    (<[(4%positive, 7%positive) := [CREATE_ENVIRONMENT]]> (grants world2))
    (environments world2) (issued world2) (clock world2) (events world2)
    (backend world2).

(** No two environments of a listing are equal on the sort column. *)
Definition no_ties (key : string → string) (f : SortField)
    (l : list (Entity Environment)) : Prop :=
  ∀ a b, a ∈ l → b ∈ l → field_compare key f a b = Eq → a = b.

(** [world_frontend]: [world2] with a second project, "frontend", in
    which Alice may create environments. *)
Definition world_frontend : World :=
  mkWorld (users world2)
    (<[8%positive := mkProject "frontend"]> (projects world2))
    (<[(1%positive, 8%positive) := [CREATE_ENVIRONMENT]]> (grants world2))
    (environments world2) (issued world2) (clock world2) (events world2)
    (backend world2).

(** The call carries [isDefault = true]. *)
Definition call_promotes (c : Call) : bool :=
  match c with
  | CreateCall _ dto _ => default false (ce_isDefault dto)
  | UpdateCall _ dto _ => default false (ue_isDefault dto)
  | DeleteCall _ _ => false
  end.

(** * Properties *)

(** ** Running computations *)

Lemma run_bind {A B} (m : M A) (k : A → M B) w :
  (m ≫= k) w =
  match m w with (Ok a, w') => k a w' | (Err e, w') => (Err e, w') end.
Proof. reflexivity. Qed.

Lemma bind_ok {A B} (m : M A) (k : A → M B) w a w' :
  m w = (Ok a, w') → (m ≫= k) w = k a w'.
Proof. intros H. by rewrite run_bind, H. Qed.

Lemma bind_err {A B} (m : M A) (k : A → M B) w e w' :
  m w = (Err e, w') → (m ≫= k) w = (Err e, w').
Proof. intros H. by rewrite run_bind, H. Qed.

Lemma run_ret {A} (a : A) w : mret (M := M) a w = (Ok a, w).
Proof. reflexivity. Qed.

Lemma run_throw_if b e w :
  throw_if b e w = if b then (Err e, w) else (Ok tt, w).
Proof. by destruct b. Qed.

Lemma run_gets {A} (f : World → A) w : gets f w = (Ok (f w), w).
Proof. reflexivity. Qed.

Ltac run :=
  repeat first
    [ rewrite run_bind | rewrite run_ret | rewrite run_throw_if
    | rewrite run_gets | progress cbn beta iota ].

(** ** The table as a list *)

Lemma rows_lookup w (r : Entity Environment) :
  r ∈ rows w ↔ environments w !! r.1 = Some r.2.
Proof. unfold rows. destruct r. apply elem_of_map_to_list. Qed.

Lemma head_filter_is_Some {A} (P : A → Prop) `{∀ x, Decision (P x)}
    (l : list A) :
  is_Some (head (filter P l)) ↔ ∃ x, x ∈ l ∧ P x.
Proof.
  split.
  - intros [x Hx]. apply head_Some_elem_of, list_elem_of_filter in Hx.
    destruct Hx; eauto.
  - intros (x & Hin & HP).
    assert (x ∈ filter P l) as Hx by (apply list_elem_of_filter; done).
    destruct (filter P l) as [|y l']; [|by eexists].
    by apply elem_of_nil in Hx.
Qed.

Lemma environmentExists_run name projectId w :
  environmentExists name projectId w =
    (Ok (head (filter (named name projectId) (rows w))), w).
Proof. reflexivity. Qed.

Lemma exists_is_Some name projectId w :
  is_Some (head (filter (named name projectId) (rows w))) ↔
  ∃ i e, environments w !! i = Some e ∧ env_name e = name ∧
         env_projectId e = projectId.
Proof.
  rewrite head_filter_is_Some. split.
  - intros ([i e] & Hin & Hn & Hp). apply rows_lookup in Hin. eauto.
  - intros (i & e & Hl & Hn & Hp). exists (i, e).
    split; [by apply rows_lookup|done].
Qed.

(** ** The authority resolver *)

Lemma getProjectWithAuthority_ok userId projectId a w p :
  projects w !! projectId = Some p →
  a ∈ effective w userId projectId →
  getProjectWithAuthority userId projectId a w = (Ok (projectId, p), w).
Proof.
  intros Hp Ha. unfold getProjectWithAuthority.
  rewrite run_bind. cbn. rewrite Hp, run_bind.
  by rewrite bool_decide_eq_true_2.
Qed.

Lemma getEnvironmentWithAuthority_ok userId i a w e :
  environments w !! i = Some e →
  a ∈ effective w userId (env_projectId e) →
  getEnvironmentWithAuthority userId i a w = (Ok (i, e), w).
Proof.
  intros Hp Ha. unfold getEnvironmentWithAuthority.
  rewrite run_bind. cbn. rewrite Hp, run_bind.
  by rewrite bool_decide_eq_true_2.
Qed.

Lemma getProjectWithAuthority_inv userId projectId a w r w' :
  getProjectWithAuthority userId projectId a w = (r, w') →
  w' = w ∧
  match r with
  | Ok x => x.1 = projectId ∧ projects w !! projectId = Some x.2 ∧
            a ∈ effective w userId projectId
  | Err e => e = NotFound ∨ e = Forbidden
  end.
Proof.
  unfold getProjectWithAuthority. rewrite run_bind. cbn.
  destruct (projects w !! projectId) as [p|] eqn:Hp.
  - rewrite run_bind. case_bool_decide; cbn; intros [= <- <-]; eauto.
  - intros [= <- <-]; eauto.
Qed.

Lemma getEnvironmentWithAuthority_inv userId i a w r w' :
  getEnvironmentWithAuthority userId i a w = (r, w') →
  w' = w ∧
  match r with
  | Ok x => x.1 = i ∧ environments w !! i = Some x.2 ∧
            a ∈ effective w userId (env_projectId x.2)
  | Err e => e = NotFound ∨ e = Forbidden
  end.
Proof.
  unfold getEnvironmentWithAuthority. rewrite run_bind. cbn.
  destruct (environments w !! i) as [p|] eqn:Hp.
  - rewrite run_bind. case_bool_decide; cbn; intros [= <- <-]; eauto.
  - intros [= <- <-]; eauto.
Qed.

(** ** The statements *)

Lemma makeAllNonDefault_run projectId w :
  ∃ n, prisma.run_op (makeAllNonDefault projectId) w =
       (Ok (BatchPayload n), cleared projectId w).
Proof. eexists. reflexivity. Qed.

Lemma environment_create_inv data w r w' :
  prisma.environment_create data w = (r, w') →
  match r with
  | Ok res =>
      let i := fresh (dom (environments w) ∪ issued w) in
      let e := prisma.create_row data (clock w) in
      res = Row (i, e) ∧
      w' = tick (issue i (set_environments (insert i e) w)) ∧
      is_Some (users w !! cd_lastUpdatedById data) ∧
      prisma.unique_violation None (cd_name data) (cd_projectId data) w
        = false
  | Err e => e = InternalError ∧ w' = w
  end.
Proof.
  unfold prisma.environment_create. rewrite run_bind. cbn.
  rewrite run_bind. case_bool_decide; cbn; [|by intros [= <- <-]].
  rewrite run_bind. case_bool_decide; cbn; [|by intros [= <- <-]].
  rewrite run_bind.
  destruct (prisma.unique_violation _ _ _ _) eqn:Hu; cbn;
    [by intros [= <- <-]|].
  intros [= <- <-]. done.
Qed.

Lemma environment_update_inv id data w r w' :
  prisma.environment_update id data w = (r, w') →
  match r with
  | Ok res =>
      ∃ old, environments w !! id = Some old ∧
        let e := prisma.update_row old data (clock w) in
        res = Row (id, e) ∧
        w' = tick (set_environments (insert id e) w) ∧
        is_Some (users w !! ud_lastUpdatedById data) ∧
        prisma.unique_violation (Some id) (env_name e) (env_projectId old) w
          = false
  | Err e => e = InternalError ∧ w' = w
  end.
Proof.
  unfold prisma.environment_update. rewrite run_bind. cbn.
  destruct (environments w !! id) as [old|] eqn:Hold;
    [|by intros [= <- <-]].
  rewrite run_bind. case_bool_decide; cbn; [|by intros [= <- <-]].
  rewrite run_bind.
  destruct (prisma.unique_violation _ _ _ _) eqn:Hu; cbn;
    [by intros [= <- <-]|].
  intros [= <- <-]. eauto 10.
Qed.

Lemma environment_delete_inv id w r w' :
  prisma.environment_delete id w = (r, w') →
  match r with
  | Ok res =>
      ∃ old, environments w !! id = Some old ∧ res = (id, old) ∧
        w' = set_events (fmap (prisma.forget_environment id))
               (set_environments (delete id) w)
  | Err e => e = InternalError ∧ w' = w
  end.
Proof.
  unfold prisma.environment_delete. rewrite run_bind. cbn.
  destruct (environments w !! id) as [old|] eqn:Hold;
    [|by intros [= <- <-]].
  intros [= <- <-]. eauto.
Qed.

Lemma transaction_err ops w e w' :
  prisma.transaction ops w = (Err e, w') → w' = w.
Proof.
  unfold prisma.transaction.
  destruct (prisma.run_ops ops w) as [[rs|e'] w'']; by intros [= <- <-].
Qed.

Lemma transaction_ok ops w rs w' :
  prisma.transaction ops w = (Ok rs, w') →
  prisma.run_ops ops w = (Ok rs, w').
Proof.
  unfold prisma.transaction.
  destruct (prisma.run_ops ops w) as [[rs'|e'] w'']; by intros [= <- <-].
Qed.

Lemma run_ops_singleton op w :
  prisma.run_ops [op] w =
  match prisma.run_op op w with
  | (Ok r, w') => (Ok [r], w')
  | (Err e, w') => (Err e, w')
  end.
Proof.
  cbn. rewrite run_bind. by destruct (prisma.run_op op w) as [[r|e] w'].
Qed.

Lemma run_ops_cleared projectId op w :
  prisma.run_ops [makeAllNonDefault projectId; op] w =
  match prisma.run_op op (cleared projectId w) with
  | (Ok r, w') =>
      (Ok [BatchPayload
             (length (filter (λ r, env_projectId r.2 = projectId) (rows w)));
           r], w')
  | (Err e, w') => (Err e, w')
  end.
Proof.
  cbn [prisma.run_ops]. rewrite run_bind.
  change (prisma.run_op (makeAllNonDefault projectId) w) with
    (Ok (BatchPayload
           (length (filter (λ r, env_projectId r.2 = projectId) (rows w)))),
     cleared projectId w).
  cbn -[prisma.run_op cleared]. rewrite !run_bind.
  by destruct (prisma.run_op op (cleared projectId w)) as [[r|e] w'].
Qed.

Lemma run_op_err op w e w' :
  prisma.run_op op w = (Err e, w') → e = InternalError.
Proof.
  destruct op as [p b|data|i data]; cbn [prisma.run_op].
  - by intros [=].
  - by intros [-> _]%environment_create_inv.
  - by intros [-> _]%environment_update_inv.
Qed.

Lemma run_ops_err ops w e w' :
  prisma.run_ops ops w = (Err e, w') → e = InternalError.
Proof.
  revert w. induction ops as [|op ops IH]; intros w; cbn [prisma.run_ops].
  - by intros [=].
  - rewrite run_bind.
    destruct (prisma.run_op op w) as [[r|e1] w1] eqn:Hop.
    + rewrite run_bind.
      destruct (prisma.run_ops ops w1) as [[rs|e2] w2] eqn:Hops.
      * by intros [=].
      * intros [= <- <-]. eauto.
    + intros [= <- <-]. eauto using run_op_err.
Qed.

Lemma transaction_err_kind ops w e w' :
  prisma.transaction ops w = (Err e, w') → e = InternalError.
Proof.
  unfold prisma.transaction.
  destruct (prisma.run_ops ops w) as [[rs|e'] w''] eqn:Hops; [done|].
  intros [= <- <-]. eauto using run_ops_err.
Qed.

(** ** The service calls, step by step *)

Lemma createEvent_run data w :
  createEvent data w = (Ok tt, dispatched data w).
Proof. reflexivity. Qed.

Lemma last_row_inv rs w r w' :
  last_row rs w = (r, w') →
  w' = w ∧
  match r with
  | Ok e => last rs = Some (Row e)
  | Err e => e = InternalError
  end.
Proof.
  unfold last_row. destruct (last rs) as [[n|e]|]; by intros [= <- <-].
Qed.

Lemma transaction_with_clear (clear : bool) projectId op w rs w' :
  prisma.transaction
    ((if clear then [makeAllNonDefault projectId] else []) ++ [op]) w
    = (Ok rs, w') →
  ∃ r, prisma.run_op op (base clear projectId w) = (Ok r, w') ∧
       last rs = Some r.
Proof.
  intros H%transaction_ok. destruct clear; cbn [app] in H.
  - rewrite run_ops_cleared in H. cbn [base].
    destruct (prisma.run_op op (cleared projectId w)) as [[r|e] w''];
      [|done].
    injection H as <- <-. eauto.
  - rewrite run_ops_singleton in H. cbn [base].
    destruct (prisma.run_op op w) as [[r|e] w'']; [|done].
    injection H as <- <-. eauto.
Qed.

Lemma createEnvironment_inv user dto projectId w r w' :
  createEnvironment user dto projectId w = (r, w') →
  match r with
  | Err e => w' = w
  | Ok res =>
      ∃ p, projects w !! projectId = Some p ∧
        CREATE_ENVIRONMENT ∈ effective w user.1 projectId ∧
        (∀ i e, environments w !! i = Some e → env_projectId e = projectId →
                env_name e ≠ ce_name dto) ∧
        let b := base (default false (ce_isDefault dto)) projectId w in
        let i := fresh (dom (environments b) ∪ issued b) in
        let e := prisma.create_row (create_data user dto projectId)
                   (clock b) in
        res = (i, e) ∧
        w' = dispatched (added_event user (i, e) projectId p)
               (tick (issue i (set_environments (insert i e) b)))
  end.
Proof.
  unfold createEnvironment. rewrite run_bind.
  destruct (getProjectWithAuthority _ _ _ w) as [[[pid p]|e] w1] eqn:Hg;
    apply getProjectWithAuthority_inv in Hg as [-> Hg];
    [|by intros [= <- <-]].
  cbn in Hg. destruct Hg as (-> & Hp & Hauth).
  rewrite run_bind, environmentExists_run, run_bind.
  rewrite run_throw_if.
  case_bool_decide as Hex; [by intros [= <- <-]|].
  rewrite exists_is_Some in Hex. rewrite run_bind.
  destruct (prisma.transaction _ w) as [[rs|e] w1] eqn:Ht.
  2:{ apply transaction_err in Ht as ->. by intros [= <- <-]. }
  apply transaction_with_clear in Ht as (res & Hop & Hlast).
  cbn [prisma.run_op] in Hop.
  apply environment_create_inv in Hop. cbn zeta in Hop.
  destruct Hop as (-> & -> & _ & _).
  rewrite run_bind. unfold last_row. rewrite Hlast.
  rewrite run_ret, run_bind, createEvent_run, run_ret. intros [= <- <-].
  exists p. split_and!; try done.
  intros i e Hi Hpe Hn. apply Hex. eauto.
Qed.

Lemma updateEnvironment_ops_run user dto id w old :
  environments w !! id = Some old →
  UPDATE_ENVIRONMENT ∈ effective w user.1 (env_projectId old) →
  updateEnvironment_ops user dto id w =
    if name_conflict dto old w then (Err Conflict, w)
    else if last_environment_guard dto old w then (Err InvalidOperation, w)
    else (Ok (update_ops user dto id old), w).
Proof.
  intros Hold Hauth. unfold updateEnvironment_ops.
  erewrite bind_ok by (by apply getEnvironmentWithAuthority_ok).
  cbn [fst snd]. unfold name_conflict, last_environment_guard,
    prisma.environment_count.
  unfold update_ops, update_data.
  destruct (ue_name dto) as [name|]; cbn [truthy].
  - destruct (truthy name); cbn [andb].
    + destruct (decide (env_name old = name)) as [Heq|Hne].
      * rewrite (bool_decide_eq_true_2 _ Heq). by run.
      * rewrite (bool_decide_eq_false_2 _ Hne). cbn [orb].
        rewrite run_bind, run_bind, environmentExists_run. run.
        case_bool_decide; [done|]. run. by destruct (_ && _ && _).
    + run. by destruct (_ && _ && _).
  - run. by destruct (_ && _ && _).
Qed.

Lemma updateEnvironment_ops_inv user dto id w r w' :
  updateEnvironment_ops user dto id w = (r, w') →
  w' = w ∧
  match r with
  | Ok ops =>
      ∃ old, environments w !! id = Some old ∧
        UPDATE_ENVIRONMENT ∈ effective w user.1 (env_projectId old) ∧
        name_conflict dto old w = false ∧
        last_environment_guard dto old w = false ∧
        ops = update_ops user dto id old
  | Err e =>
      e = NotFound ∨ e = Forbidden ∨ e = Conflict ∨ e = InvalidOperation
  end.
Proof.
  destruct (getEnvironmentWithAuthority user.1 id UPDATE_ENVIRONMENT w)
    as [[[i old]|e] w1] eqn:Hg;
    pose proof Hg as Hg';
    apply getEnvironmentWithAuthority_inv in Hg' as [-> Hg'].
  - cbn in Hg'. destruct Hg' as (-> & Hold & Hauth).
    rewrite (updateEnvironment_ops_run _ _ _ _ _ Hold Hauth).
    destruct (name_conflict dto old w) eqn:Hc; [intros [= <- <-]; eauto|].
    destruct (last_environment_guard dto old w) eqn:Hl;
      intros [= <- <-]; eauto 10.
  - unfold updateEnvironment_ops. rewrite (bind_err _ _ _ _ _ Hg).
    intros [= <- <-]. split; [done|]. destruct Hg'; eauto.
Qed.

Lemma update_row_touched (clear : bool) projectId b now old data t :
  prisma.update_row
    ((if clear then prisma.updateMany_row projectId b now else id) old)
    data t =
  prisma.update_row old data t.
Proof. destruct clear; [|done]. unfold prisma.updateMany_row. by case_decide. Qed.

Lemma touched_projectId (clear : bool) projectId b now e :
  env_projectId
    ((if clear then prisma.updateMany_row projectId b now else id) e) =
  env_projectId e.
Proof. destruct clear; [|done]. unfold prisma.updateMany_row. by case_decide. Qed.

Lemma touched_name (clear : bool) projectId b now e :
  env_name ((if clear then prisma.updateMany_row projectId b now else id) e) =
  env_name e.
Proof. destruct clear; [|done]. unfold prisma.updateMany_row. by case_decide. Qed.

Lemma base_lookup clear projectId w i :
  environments (base clear projectId w) !! i =
  (if clear then prisma.updateMany_row projectId false (clock w) else id)
    <$> environments w !! i.
Proof.
  destruct clear; cbn.
  - apply lookup_fmap.
  - by destruct (environments w !! i).
Qed.

Lemma updateEnvironment_commit_inv user dto id old w r w' :
  environments w !! id = Some old →
  updateEnvironment_commit user (update_ops user dto id old) w = (r, w') →
  match r with
  | Err e => e = InternalError ∧ w' = w
  | Ok res =>
      let b := base (default false (ue_isDefault dto)) (env_projectId old) w in
      let e := prisma.update_row old (update_data user dto old) (clock b) in
      res = (id, e) ∧
      w' = dispatched (updated_event user (id, e))
             (tick (set_environments (insert id e) b))
  end.
Proof.
  intros Hold. unfold updateEnvironment_commit, update_ops.
  rewrite run_bind.
  destruct (prisma.transaction _ w) as [[rs|e] w1] eqn:Ht.
  2:{ pose proof Ht as ->%transaction_err. intros [= <- <-].
      eauto using transaction_err_kind. }
  apply transaction_with_clear in Ht as (res & Hop & Hlast).
  cbn [prisma.run_op] in Hop.
  apply environment_update_inv in Hop. cbn zeta in Hop.
  destruct Hop as (old' & Hold' & -> & -> & _ & _).
  rewrite base_lookup, Hold in Hold'. injection Hold' as <-.
  rewrite update_row_touched in Hlast |- *.
  rewrite run_bind. unfold last_row. rewrite Hlast.
  rewrite run_ret, run_bind, createEvent_run, run_ret. by intros [= <- <-].
Qed.

Lemma updateEnvironment_inv user dto id w r w' :
  updateEnvironment user dto id w = (r, w') →
  match r with
  | Err e => w' = w
  | Ok res =>
      ∃ old, environments w !! id = Some old ∧
        UPDATE_ENVIRONMENT ∈ effective w user.1 (env_projectId old) ∧
        name_conflict dto old w = false ∧
        last_environment_guard dto old w = false ∧
        let b := base (default false (ue_isDefault dto)) (env_projectId old) w in
        let e := prisma.update_row old (update_data user dto old) (clock b) in
        res = (id, e) ∧
        w' = dispatched (updated_event user (id, e))
               (tick (set_environments (insert id e) b))
  end.
Proof.
  unfold updateEnvironment. rewrite run_bind.
  destruct (updateEnvironment_ops user dto id w) as [[ops|e] w1] eqn:Hops;
    apply updateEnvironment_ops_inv in Hops as [-> Hops];
    [|by intros [= <- <-]].
  destruct Hops as (old & Hold & Hauth & Hc & Hl & ->).
  intros H. apply (updateEnvironment_commit_inv _ _ _ _ _ _ _ Hold) in H.
  destruct r as [res|e]; [|by destruct H].
  destruct H as [-> ->]. exists old. by split_and!.
Qed.

Lemma deleteEnvironment_inv user id w r w' :
  deleteEnvironment user id w = (r, w') →
  match r with
  | Err e => w' = w
  | Ok _ =>
      ∃ old, environments w !! id = Some old ∧
        DELETE_ENVIRONMENT ∈ effective w user.1 (env_projectId old) ∧
        env_isDefault old = false ∧
        w' = dispatched (deleted_event user (id, old))
               (set_events (fmap (prisma.forget_environment id))
                  (set_environments (delete id) w))
  end.
Proof.
  unfold deleteEnvironment. rewrite run_bind.
  destruct (getEnvironmentWithAuthority _ _ _ w) as [[[i old]|e] w1] eqn:Hg;
    apply getEnvironmentWithAuthority_inv in Hg as [-> Hg];
    [|by intros [= <- <-]].
  cbn in Hg. destruct Hg as (-> & Hold & Hauth). cbn [fst snd].
  rewrite run_bind, run_throw_if.
  destruct (env_isDefault old) eqn:Hd; [by intros [= <- <-]|].
  rewrite run_bind.
  destruct (prisma.environment_delete id w) as [[res|e] w1] eqn:Hdel;
    apply environment_delete_inv in Hdel.
  - destruct Hdel as (old' & Hold' & -> & ->).
    rewrite createEvent_run. intros [= <- <-]. eauto.
  - destruct Hdel as [-> ->]. by intros [= <- <-].
Qed.

(** ** Default environments *)

Lemma NoDup_rows w : NoDup (rows w).
Proof. apply NoDup_map_to_list. Qed.

Lemma rows_key_inj w (r1 r2 : Entity Environment) :
  r1 ∈ rows w → r2 ∈ rows w → r1.1 = r2.1 → r1 = r2.
Proof.
  intros H1%rows_lookup H2%rows_lookup Heq. destruct r1, r2. cbn in *.
  subst. congruence.
Qed.

Lemma elem_of_defaults w projectId (r : Entity Environment) :
  r ∈ defaults w projectId ↔
  environments w !! r.1 = Some r.2 ∧ env_projectId r.2 = projectId ∧
  env_isDefault r.2 = true.
Proof.
  unfold defaults. rewrite list_elem_of_filter, rows_lookup. tauto.
Qed.

Lemma elem_of_members w projectId (r : Entity Environment) :
  r ∈ members w projectId ↔
  environments w !! r.1 = Some r.2 ∧ env_projectId r.2 = projectId.
Proof.
  unfold members. rewrite list_elem_of_filter, rows_lookup. tauto.
Qed.

Lemma default_in_defaults w projectId i :
  default_in w projectId i ↔ ∃ e, (i, e) ∈ defaults w projectId.
Proof.
  unfold default_in. setoid_rewrite elem_of_defaults. done.
Qed.


Lemma defaults_at_most_one w projectId :
  (length (defaults w projectId) ≤ 1)%nat ↔
  ∀ i j, default_in w projectId i → default_in w projectId j → i = j.
Proof.
  split.
  - intros Hlen i j [ei Hi]%default_in_defaults [ej Hj]%default_in_defaults.
    destruct (defaults w projectId) as [|x [|y l]]; cbn in Hlen; [|  |lia].
    + by apply elem_of_nil in Hi.
    + apply list_elem_of_singleton in Hi, Hj. congruence.
  - intros Huniq.
    assert (NoDup (defaults w projectId)) as Hnd
      by apply NoDup_filter, NoDup_rows.
    destruct (defaults w projectId) as [|x [|y l]] eqn:Hd; cbn; [lia|lia|].
    exfalso.
    assert (x ∈ defaults w projectId) as Hx by (rewrite Hd; set_solver).
    assert (y ∈ defaults w projectId) as Hy by (rewrite Hd; set_solver).
    apply NoDup_cons in Hnd as [Hnotin _]. apply Hnotin.
    assert (x = y) as ->; [|left].
    apply (rows_key_inj w).
    + apply list_elem_of_filter in Hx. tauto.
    + apply list_elem_of_filter in Hy. tauto.
    + apply Huniq; apply default_in_defaults.
      * exists x.2. by destruct x.
      * exists y.2. by destruct y.
Qed.


Lemma at_most_one_default_alt w :
  at_most_one_default w ↔
  ∀ p i j, default_in w p i → default_in w p j → i = j.
Proof.
  unfold at_most_one_default. by setoid_rewrite defaults_at_most_one.
Qed.


(** *** What a call does to the environment table *)

Lemma create_effect user dto p w :
  let w' := perform (CreateCall user dto p) w in
  let clear := default false (ce_isDefault dto) in
  w' = w ∨
  ∃ i e, environments w' = <[i:=e]> (environments (base clear p w)) ∧
    environments w !! i = None ∧ env_projectId e = p ∧
    env_isDefault e = clear.
Proof.
  intros w' clear. subst w'. cbn [perform].
  destruct (createEnvironment user dto p w) as [[res|err] w1] eqn:Hc;
    apply createEnvironment_inv in Hc; [|by left].
  right. cbn zeta in Hc. destruct Hc as (pr & _ & _ & _ & _ & ->).
  cbn [snd]. set (b := base clear p w).
  exists (fresh (dom (environments b) ∪ issued b)),
    (prisma.create_row (create_data user dto p) (clock b)).
  split_and!; [done| |done|done].
  assert (fresh (dom (environments b) ∪ issued b) ∉ dom (environments b))
    as Hfresh.
  { pose proof (is_fresh (dom (environments b) ∪ issued b)) as Hf.
    intros Hin. apply Hf. by apply elem_of_union_l. }
  apply not_elem_of_dom in Hfresh. subst b. rewrite base_lookup in Hfresh.
  by apply fmap_None in Hfresh.
Qed.

Lemma update_effect user dto id w :
  let w' := perform (UpdateCall user dto id) w in
  let clear := default false (ue_isDefault dto) in
  w' = w ∨
  ∃ old e, environments w !! id = Some old ∧
    environments w' =
      <[id:=e]> (environments (base clear (env_projectId old) w)) ∧
    env_projectId e = env_projectId old ∧
    env_isDefault e = default (env_isDefault old) (ue_isDefault dto).
Proof.
  intros w' clear. subst w'. cbn [perform].
  destruct (updateEnvironment user dto id w) as [[res|err] w1] eqn:Hc;
    apply updateEnvironment_inv in Hc; [|by left].
  right. cbn zeta in Hc. destruct Hc as (old & Hold & _ & _ & _ & _ & ->).
  cbn [snd]. exists old. eexists. split_and!; [done|reflexivity|done|done].
Qed.

Lemma delete_effect user id w :
  let w' := perform (DeleteCall user id) w in
  w' = w ∨
  ∃ old, environments w !! id = Some old ∧ env_isDefault old = false ∧
    environments w' = delete id (environments w).
Proof.
  intros w'. subst w'. cbn [perform].
  destruct (deleteEnvironment user id w) as [[res|err] w1] eqn:Hc;
    apply deleteEnvironment_inv in Hc; [|by left].
  right. destruct Hc as (old & Hold & _ & Hd & Hw).
  cbn [snd]. exists old. split_and!; [done|done|by rewrite Hw].
Qed.

Lemma default_in_insert w' w0 i e q j :
  environments w' = <[i:=e]> (environments w0) →
  default_in w' q j ↔
  (j = i ∧ env_projectId e = q ∧ env_isDefault e = true) ∨
  (j ≠ i ∧ default_in w0 q j).
Proof.
  intros Hw. unfold default_in. rewrite Hw. split.
  - intros (x & Hx & Hq & Hd). destruct (decide (j = i)) as [->|Hne].
    + rewrite lookup_insert_eq in Hx. injection Hx as ->. by left.
    + rewrite lookup_insert_ne in Hx by done. right. eauto.
  - intros [(-> & Hq & Hd)|(Hne & x & Hx & Hq & Hd)].
    + exists e. by rewrite lookup_insert_eq.
    + exists x. by rewrite lookup_insert_ne.
Qed.


Lemma default_in_delete w' w0 i q j :
  environments w' = delete i (environments w0) →
  default_in w' q j ↔ j ≠ i ∧ default_in w0 q j.
Proof.
  intros Hw. unfold default_in. rewrite Hw. split.
  - intros (x & Hx & Hq & Hd). apply lookup_delete_Some in Hx as [Hne Hx].
    eauto 10.
  - intros (Hne & x & Hx & Hq & Hd). exists x.
    by rewrite lookup_delete_ne.
Qed.


Lemma default_in_base clear p w q j :
  default_in (base clear p w) q j ↔
  default_in w q j ∧ (clear = true → q ≠ p).
Proof.
  unfold default_in. setoid_rewrite base_lookup. destruct clear.
  - split.
    + intros (x & Hx & Hq & Hd). apply fmap_Some in Hx as (y & Hy & ->).
      unfold prisma.updateMany_row in *. case_decide; [done|].
      split; [eauto|]. congruence.
    + intros [(x & Hx & Hq & Hd) Hne].
      exists x. rewrite Hx. cbn. unfold prisma.updateMany_row.
      rewrite decide_False by (rewrite Hq; auto). done.
  - split.
    + intros (x & Hx & Hq & Hd). apply fmap_Some in Hx as (y & Hy & ->).
      split; [eauto|done].
    + intros [(x & Hx & Hq & Hd) _]. exists x. by rewrite Hx.
Qed.


Lemma perform_at_most_one c w :
  at_most_one_default w → at_most_one_default (perform c w).
Proof.
  rewrite !at_most_one_default_alt. intros Hw. destruct c as [u d p|u d i|u i].
  - destruct (create_effect u d p w) as [->|(i & e & Hw' & Hnew & Hp & Hd)];
      [done|].
    intros q j1 j2.
    rewrite !(default_in_insert _ _ _ _ _ _ Hw'), !default_in_base.
    intros [(-> & Hq & He)|(Hne1 & H1 & Hc1)]
           [(-> & Hq' & He')|(Hne2 & H2 & Hc2)]; [done| | |by eauto].
    + rewrite Hd in He. destruct Hc2; [done|congruence].
    + rewrite Hd in He'. destruct Hc1; [done|congruence].
  - destruct (update_effect u d i w)
      as [->|(old & e & Hold & Hw' & Hp & Hd)]; [done|].
    intros q j1 j2.
    rewrite !(default_in_insert _ _ _ _ _ _ Hw'), !default_in_base.
    assert (∀ j, j ≠ i → env_projectId e = q → env_isDefault e = true →
                 default_in w q j →
                 (default false (ue_isDefault d) = true →
                  q ≠ env_projectId old) → False) as Hkey.
    { intros j Hne Hq He Hj Hc.
      destruct (ue_isDefault d) as [[]|] eqn:Hdto; cbn in Hd, Hc.
      - apply Hc; [done|congruence].
      - congruence.
      - apply Hne. apply (Hw q); [done|]. exists old. split_and!; congruence. }
    intros [(-> & Hq & He)|(Hne1 & H1 & Hc1)]
           [(-> & Hq' & He')|(Hne2 & H2 & Hc2)]; [done| | |by eauto].
    + exfalso. eauto.
    + exfalso. eauto.
  - destruct (delete_effect u i w) as [->|(old & Hold & Hd & Hw')]; [done|].
    intros q j1 j2. rewrite !(default_in_delete _ _ _ _ _ Hw').
    intros [_ H1] [_ H2]. eauto.
Qed.







Lemma perform_all_at_most_one cs w :
  at_most_one_default w → at_most_one_default (perform_all cs w).
Proof.
  revert w. induction cs as [|c cs IH]; intros w Hw; [done|].
  cbn. by apply IH, perform_at_most_one.
Qed.


(** ** Listing *)

Lemma append_cons a s t : (String a s +:+ t) = String a (s +:+ t).
Proof. reflexivity. Qed.

Lemma append_nil t : ("" +:+ t) = t.
Proof. reflexivity. Qed.

Lemma prefix_spec sub s :
  String.prefix sub s = true ↔ ∃ post, s = sub +:+ post.
Proof.
  revert s. induction sub as [|a sub IH]; intros s; cbn.
  - destruct s; split; eauto.
  - setoid_rewrite append_cons. destruct s as [|b s]; cbn.
    + split; [done|]. by intros [post [=]].
    + destruct (Ascii.ascii_dec a b) as [->|Hne].
      * rewrite IH. split; intros [post Hp]; exists post; congruence.
      * split; [done|]. intros [post Hp]. congruence.
Qed.

Lemma contains_spec sub s :
  contains sub s = true ↔ ∃ pre post, s = pre +:+ sub +:+ post.
Proof.
  induction s as [|b s IH]; cbn [contains].
  - rewrite orb_false_r, prefix_spec. split.
    + intros [post ->]. by exists EmptyString, post.
    + intros ([|c pre] & post & Hs); [eauto|done].
  - rewrite orb_true_iff, prefix_spec, IH. split.
    + intros [[post ->]|(pre & post & ->)].
      * by exists EmptyString, post.
      * by exists (String b pre), post.
    + intros ([|c pre] & post & Hs).
      * left. eauto.
      * right. rewrite append_cons in Hs. injection Hs as -> ->. eauto.
Qed.

Lemma contains_cons sub s :
  contains sub s =
  String.prefix sub s ||
  match s with
  | EmptyString => false
  | String _ s' => contains sub s'
  end.
Proof. by destruct s. Qed.

Lemma like_percent pattern s :
  like (String "%" pattern) s =
  like pattern s ||
  match s with
  | EmptyString => false
  | String _ s' => like (String "%" pattern) s'
  end.
Proof. by destruct s. Qed.

Lemma like_any s : like "%" s = true.
Proof.
  induction s as [|b s IH]; [done|].
  rewrite like_percent, IH. apply orb_true_r.
Qed.

Lemma like_literal c pattern s :
  wildcard c = false →
  like (String c pattern) s =
  match s with
  | EmptyString => false
  | String e s' => Ascii.eqb c e && like pattern s'
  end.
Proof.
  unfold wildcard. intros H.
  apply orb_false_elim in H as [H H3]. apply orb_false_elim in H as [H1 H2].
  cbn [like]. by rewrite H1, H2, H3.
Qed.

Lemma like_prefix search s :
  wildcard_free search = true →
  like (search +:+ "%") s = String.prefix search s.
Proof.
  revert s. induction search as [|c search IH]; intros s H.
  - rewrite append_nil, like_any. by destruct s.
  - cbn [wildcard_free] in H. apply andb_true_iff in H as [Hc H].
    apply negb_true_iff in Hc.
    rewrite append_cons, (like_literal _ _ _ Hc). destruct s as [|e s]; [done|].
    rewrite IH by done. cbn [String.prefix].
    destruct (Ascii.ascii_dec c e) as [->|Hne].
    + by rewrite Ascii.eqb_refl.
    + apply Ascii.eqb_neq in Hne. by rewrite Hne.
Qed.

Lemma name_contains_plain search name :
  wildcard_free search = true →
  name_contains search name = contains search name.
Proof.
  intros H. unfold name_contains. rewrite append_cons, append_nil.
  induction name as [|b name IH]; rewrite like_percent, contains_cons.
  - by rewrite (like_prefix _ _ H).
  - by rewrite (like_prefix _ _ H), IH.
Qed.

Lemma name_contains_empty name : name_contains "" name = true.
Proof. rewrite name_contains_plain by done. by destruct name. Qed.

Lemma parse_column f : parse_field (column f) = Some f.
Proof. by destruct f. Qed.

Lemma parse_direction o : parse_order (direction o) = Some o.
Proof. by destruct o. Qed.

Lemma ascii_compare_trans a b c :
  Ascii.compare a b = Lt → Ascii.compare b c = Lt → Ascii.compare a c = Lt.
Proof.
  unfold Ascii.compare. rewrite !N.compare_lt_iff. lia.
Qed.

Lemma string_compare_trans a b c :
  String.compare a b ≠ Gt → String.compare b c ≠ Gt →
  String.compare a c ≠ Gt.
Proof.
  revert b c. induction a as [|x a IH]; intros [|y b] [|z c]; cbn; try done.
  destruct (Ascii.compare x y) eqn:Hxy; [|clear IH|done].
  - apply Ascii.compare_eq_iff in Hxy as ->.
    destruct (Ascii.compare y z); [apply IH|done|done].
  - destruct (Ascii.compare y z) eqn:Hyz; [| |done].
    + apply Ascii.compare_eq_iff in Hyz as ->. by rewrite Hxy.
    + by rewrite (ascii_compare_trans _ _ _ Hxy Hyz).
Qed.

Lemma compare_bool_antisym a b :
  compare_bool a b = CompOpp (compare_bool b a).
Proof. by destruct a, b. Qed.

Lemma compare_option_antisym {A} (cmp : A → A → comparison) :
  (∀ x y, cmp x y = CompOpp (cmp y x)) →
  ∀ a b, compare_option cmp a b = CompOpp (compare_option cmp b a).
Proof. intros H [x|] [y|]; cbn; auto. Qed.

Lemma field_compare_antisym key f a b :
  field_compare key f a b = CompOpp (field_compare key f b a).
Proof.
  destruct f; cbn.
  - apply Pos.compare_antisym.
  - apply String.compare_antisym.
  - apply compare_option_antisym. intros x y. apply String.compare_antisym.
  - apply Nat.compare_antisym.
  - apply Nat.compare_antisym.
  - apply compare_bool_antisym.
  - apply compare_option_antisym. intros x y. apply Pos.compare_antisym.
  - apply Pos.compare_antisym.
Qed.

#[global] Instance ordered_total key f o : Total (ordered key f o).
Proof.
  intros a b. unfold ordered.
  destruct o; rewrite (field_compare_antisym key f a b);
    destruct (field_compare key f b a); cbn; auto.
Qed.

Lemma compare_option_trans {A} (cmp : A → A → comparison) :
  (∀ x y z, cmp x y ≠ Gt → cmp y z ≠ Gt → cmp x z ≠ Gt) →
  ∀ a b c, compare_option cmp a b ≠ Gt → compare_option cmp b c ≠ Gt →
           compare_option cmp a c ≠ Gt.
Proof. intros H [x|] [y|] [z|]; cbn; try done. apply H. Qed.

Lemma field_compare_trans key f a b c :
  field_compare key f a b ≠ Gt → field_compare key f b c ≠ Gt →
  field_compare key f a c ≠ Gt.
Proof.
  destruct f; cbn.
  - apply Pos.le_trans.
  - apply string_compare_trans.
  - apply compare_option_trans. intros x y z. apply string_compare_trans.
  - rewrite !Nat.compare_le_iff. lia.
  - rewrite !Nat.compare_le_iff. lia.
  - by destruct (env_isDefault a.2), (env_isDefault b.2),
      (env_isDefault c.2).
  - apply compare_option_trans. intros x y z. apply Pos.le_trans.
  - apply Pos.le_trans.
Qed.

#[global] Instance ordered_trans key f o : Transitive (ordered key f o).
Proof.
  intros a b c. unfold ordered. destruct o.
  - apply field_compare_trans.
  - intros Hab Hbc. by apply (field_compare_trans key f c b a).
Qed.

(** * The claims *)

(** ** C1: default environments *)

Lemma sole_member w id old :
  environments w !! id = Some old →
  length (members w (env_projectId old)) = 1%nat →
  ∀ j e, environments w !! j = Some e →
         env_projectId e = env_projectId old → j = id.
Proof.
  intros Hold Hlen j e Hj Hp.
  assert ((id, old) ∈ members w (env_projectId old)) as H1
    by (by apply elem_of_members).
  assert ((j, e) ∈ members w (env_projectId old)) as H2
    by (by apply elem_of_members).
  destruct (members w (env_projectId old)) as [|x [|y l]]; [done| |done].
  apply list_elem_of_singleton in H1, H2. congruence.
Qed.

(** Whoever calls and whatever else the payload carries, the call fails
    and writes nothing. *)
Lemma last_default_update_fails user dto id w old :
  environments w !! id = Some old →
  env_isDefault old = true →
  length (members w (env_projectId old)) = 1%nat →
  ue_isDefault dto = Some false →
  ∃ err, updateEnvironment user dto id w = (Err err, w).
Proof.
  intros Hold Hd Hlen Hdto.
  destruct (updateEnvironment user dto id w) as [[res|err] w'] eqn:Hu;
    apply updateEnvironment_inv in Hu; [|subst; eauto].
  destruct Hu as (old' & Hold' & _ & _ & Hg & _).
  assert (old' = old) as -> by congruence.
  unfold last_environment_guard in Hg. rewrite Hd in Hg.
  rewrite !bool_decide_eq_true_2 in Hg; done.
Qed.





(** ** C2: the last environment stays default *)

(** C2, as stated, fails: the name check comes before the last-environment
    guard.  In [world1] "dev" is the default and the only environment of
    its project; the update with [isDefault = false] that also repeats the
    name "dev" fails with [Conflict], not with [InvalidOperation]. *)
Lemma last_default_own_name_counterexample :
  environments world1 !! 1%positive = Some dev_row ∧
  env_isDefault dev_row = true ∧
  length (members world1 (env_projectId dev_row)) = 1%nat ∧
  updateEnvironment alice (mkUpdateEnvironment (Some "dev") None (Some false))
    1%positive world1 = (Err Conflict, world1).
Proof. split_and!; vm_compute; reflexivity. Qed.

(** C2, amended.  The environment is the default one and the only one of
    its project, and the payload carries [isDefault = false].  Then
    [updateEnvironment] fails, whoever calls and whatever else the payload
    carries, and the world is unchanged.  When the caller may update the
    environment, the failure is [InvalidOperation], unless the payload
    repeats the environment's own non-empty name: the name check comes
    first, and the failure is then [Conflict]. *)
Theorem updateEnvironment_last_default user dto id w old :
  environments w !! id = Some old →
  env_isDefault old = true →
  length (members w (env_projectId old)) = 1%nat →
  ue_isDefault dto = Some false →
  (∃ err, updateEnvironment user dto id w = (Err err, w)) ∧
  (UPDATE_ENVIRONMENT ∈ effective w user.1 (env_projectId old) →
   updateEnvironment user dto id w =
     (Err (if decide (ue_name dto = Some (env_name old) ∧ env_name old ≠ "")
           then Conflict else InvalidOperation), w)).
Proof.
  intros Hold Hd Hlen Hdto.
  split; [by apply (last_default_update_fails _ _ _ _ old)|].
  intros Hauth. unfold updateEnvironment.
  rewrite run_bind, (updateEnvironment_ops_run _ _ _ _ _ Hold Hauth).
  destruct (decide (ue_name dto = Some (env_name old) ∧ env_name old ≠ ""))
    as [[Hn Hne]|Hname].
  - assert (name_conflict dto old w = true) as ->; [|done].
    unfold name_conflict. rewrite Hn.
    assert (truthy (env_name old) = true) as ->
      by (by destruct (env_name old)).
    cbn [andb]. apply orb_true_iff. left. by apply bool_decide_eq_true_2.
  - assert (name_conflict dto old w = false) as ->.
    { unfold name_conflict. destruct (ue_name dto) as [n|] eqn:Hn; [|done].
      destruct (truthy n) eqn:Ht; [|done]. cbn [andb].
      assert (n ≠ env_name old) as Hown.
      { intros ->. apply Hname. split; [done|]. intros He.
        rewrite He in Ht. done. }
      apply orb_false_intro.
      - by apply bool_decide_eq_false_2.
      - apply bool_decide_eq_false_2.
        intros (j & e & Hj & He & Hp)%exists_is_Some.
        pose proof (sole_member _ _ _ Hold Hlen j e Hj Hp) as ->.
        assert (e = old) as -> by congruence. done. }
    assert (last_environment_guard dto old w = true) as ->; [|done].
    unfold last_environment_guard. rewrite Hd.
    rewrite !bool_decide_eq_true_2; done.
Qed.

Lemma updateEnvironment_last_default_witness :
  updateEnvironment alice (mkUpdateEnvironment None None (Some false))
    1%positive world1 = (Err InvalidOperation, world1) ∧
  updateEnvironment alice
    (mkUpdateEnvironment (Some "prod") (Some "production") (Some false))
    1%positive world1 = (Err InvalidOperation, world1) ∧
  ∃ err,
    updateEnvironment bob (mkUpdateEnvironment None None (Some false))
      1%positive world1 = (Err err, world1).
Proof.
  assert (environments world1 !! 1%positive = Some dev_row) as Hold
    by (vm_compute; reflexivity).
  assert (length (members world1 (env_projectId dev_row)) = 1%nat) as Hlen
    by (vm_compute; reflexivity).
  assert (UPDATE_ENVIRONMENT ∈
            effective world1 alice.1 (env_projectId dev_row)) as Hauth
    by compute_done.
  split_and!.
  - exact (proj2 (updateEnvironment_last_default alice
                    (mkUpdateEnvironment None None (Some false)) 1%positive
                    world1 dev_row Hold eq_refl Hlen eq_refl) Hauth).
  - exact (proj2 (updateEnvironment_last_default alice
                    (mkUpdateEnvironment (Some "prod") (Some "production")
                       (Some false)) 1%positive
                    world1 dev_row Hold eq_refl Hlen eq_refl) Hauth).
  - exact (proj1 (updateEnvironment_last_default bob
                    (mkUpdateEnvironment None None (Some false)) 1%positive
                    world1 dev_row Hold eq_refl Hlen eq_refl)).
Defined.

(** ** C3: renaming to a name in use *)

(** C3, as stated, fails for the empty name: the name check is skipped for
    a falsy [dto.name].  Environment 1 is named [""]; updating it with
    [name = ""] succeeds, and updating environment 2 to the name [""],
    which environment 1 of the same project holds, fails in the database
    on the unique constraint, not with [Conflict]. *)
Lemma updateEnvironment_blank_name_counterexample :
  environments world_blank !! 1%positive = Some blank_row ∧
  ue_name rename_blank = Some (env_name blank_row) ∧
  UPDATE_ENVIRONMENT ∈ effective world_blank alice.1 (env_projectId blank_row) ∧
  (updateEnvironment alice rename_blank 1%positive world_blank).1 =
    Ok (1%positive,
        mkEnvironment "" None 1 3 true (Some 1%positive) 7%positive) ∧
  (∃ e, environments world_blank !! 2%positive = Some e ∧
        env_projectId e = env_projectId blank_row) ∧
  (updateEnvironment alice rename_blank 2%positive world_blank).1 =
    Err InternalError.
Proof.
  split_and!; try (vm_compute; reflexivity).
  - compute_done.
  - eexists. split; vm_compute; reflexivity.
Qed.

(** C3, amended.  For a non-empty name: when the caller may update the
    environment and the payload's name is the environment's current name,
    or the name of an environment of the same project, [updateEnvironment]
    fails with [Conflict] and leaves the world unchanged. *)
Theorem updateEnvironment_name_conflict user dto id w old name :
  environments w !! id = Some old →
  UPDATE_ENVIRONMENT ∈ effective w user.1 (env_projectId old) →
  ue_name dto = Some name →
  name ≠ "" →
  (name = env_name old ∨
   ∃ j e, environments w !! j = Some e ∧
          env_projectId e = env_projectId old ∧ env_name e = name) →
  updateEnvironment user dto id w = (Err Conflict, w).
Proof.
  intros Hold Hauth Hn Hne Hcase. unfold updateEnvironment.
  rewrite run_bind, (updateEnvironment_ops_run _ _ _ _ _ Hold Hauth).
  assert (name_conflict dto old w = true) as ->; [|done].
  unfold name_conflict. rewrite Hn.
  assert (truthy name = true) as -> by (by destruct name).
  cbn [andb]. apply orb_true_iff. destruct Hcase as [->|(j & e & Hj & Hp & He)].
  - left. by apply bool_decide_eq_true_2.
  - right. apply bool_decide_eq_true_2, exists_is_Some. eauto.
Qed.

Lemma updateEnvironment_name_conflict_witness :
  updateEnvironment alice (mkUpdateEnvironment (Some "dev") None None)
    2%positive world2 = (Err Conflict, world2).
Proof.
  apply (updateEnvironment_name_conflict alice _ 2%positive world2
           staging_row "dev").
  - vm_compute. reflexivity.
  - compute_done.
  - reflexivity.
  - discriminate.
  - right. exists 1%positive, dev_row. split_and!; vm_compute; reflexivity.
Defined.

(** ** C4: deleting the default environment *)

(** C4.  When the caller may delete the environment and the environment is
    the default one, [deleteEnvironment] fails with [InvalidOperation],
    however many environments the project has, and leaves the world as it
    found it. *)
Theorem deleteEnvironment_default user id w e :
  environments w !! id = Some e →
  DELETE_ENVIRONMENT ∈ effective w user.1 (env_projectId e) →
  env_isDefault e = true →
  deleteEnvironment user id w = (Err InvalidOperation, w).
Proof.
  intros Hi Hauth Hd. unfold deleteEnvironment.
  erewrite bind_ok by (by apply getEnvironmentWithAuthority_ok).
  cbn [fst snd]. by rewrite run_bind, run_throw_if, Hd.
Qed.

Lemma deleteEnvironment_default_witness :
  deleteEnvironment alice 1%positive world2 = (Err InvalidOperation, world2).
Proof.
  apply (deleteEnvironment_default alice 1%positive world2 dev_row).
  - vm_compute. reflexivity.
  - compute_done.
  - reflexivity.
Defined.

(** ** C5: audit events *)

Lemma in_flight_dispatched data w :
  in_flight (backend (dispatched data w)) =
  in_flight (backend w) ++ [event_row data].
Proof. reflexivity. Qed.

Lemma backend_base clear p w : backend (base clear p w) = backend w.
Proof. by destruct clear. Qed.

Lemma events_base clear p w : events (base clear p w) = events w.
Proof. by destruct clear. Qed.

Lemma settle_step w ev rest :
  in_flight (backend w) = ev :: rest →
  events (settle w) =
    events w ++ (if event_delivered ev w then [ev] else []) ∧
  in_flight (backend (settle w)) = rest ∧
  event_outcomes (backend (settle w)) = tail (event_outcomes (backend w)) ∧
  environments (settle w) = environments w ∧
  users (settle w) = users w.
Proof.
  intros Hq. unfold settle. rewrite Hq. cbn.
  split_and!; try done.
  destruct (event_delivered ev w); [done|by rewrite app_nil_r].
Qed.

Lemma settle_n_landed n w :
  length (in_flight (backend w)) = n →
  ∃ landed,
    landed `sublist_of` in_flight (backend w) ∧
    events (settle_n n w) = events w ++ landed ∧
    in_flight (backend (settle_n n w)) = [] ∧
    environments (settle_n n w) = environments w.
Proof.
  revert w. induction n as [|n IH]; intros w Hlen.
  - exists []. apply nil_length_inv in Hlen. cbn. rewrite Hlen, app_nil_r.
    by split_and!.
  - destruct (in_flight (backend w)) as [|ev rest] eqn:Hq; [done|].
    destruct (settle_step w ev rest Hq) as (Hev & Hrest & _ & Henv & _).
    destruct (IH (settle w)) as (landed & Hsub & Hevs & Hnil & Henv').
    { rewrite Hrest. cbn in Hlen. lia. }
    cbn [settle_n]. rewrite Hrest in Hsub. rewrite Hevs, Hev, <- app_assoc.
    eexists. split_and!; [|reflexivity|done|congruence].
    destruct (event_delivered ev w); cbn.
    + by apply sublist_skip.
    + by apply sublist_cons.
Qed.

Lemma settle_n_all n w :
  length (in_flight (backend w)) = n →
  event_outcomes (backend w) = [] →
  (∀ ev, ev ∈ in_flight (backend w) → reference_ok ev w = true) →
  events (settle_n n w) = events w ++ in_flight (backend w).
Proof.
  revert w. induction n as [|n IH]; intros w Hlen Hout Href.
  - apply nil_length_inv in Hlen. cbn. by rewrite Hlen, app_nil_r.
  - destruct (in_flight (backend w)) as [|ev rest] eqn:Hq; [done|].
    destruct (settle_step w ev rest Hq) as (Hev & Hrest & Hout' & Henv & Hus).
    cbn [settle_n]. rewrite IH.
    + rewrite Hev, Hrest, <- app_assoc. f_equal.
      unfold event_delivered. rewrite Hout, Href; [done|left].
    + rewrite Hrest. cbn in Hlen. lia.
    + by rewrite Hout', Hout.
    + intros ev' Hin. rewrite Hrest in Hin.
      rewrite <- (Href ev') by (by right).
      unfold reference_ok. by rewrite Henv, Hus.
Qed.

(** C5, as stated, fails: a call can succeed and leave no event.  The
    insertion of the event is not part of the call, which does not wait
    for it: when it fails, the failure is swallowed.  In
    [world1_sink_down] the next insertion to complete fails; creating
    "staging" succeeds, the environment is stored, the log is unchanged
    when the call returns, and it is still unchanged when the insertion
    has completed. *)
Lemma event_lost_counterexample :
  let call := createEnvironment alice staging_dto 7%positive in
  (call world1_sink_down).1 = Ok (2%positive, staging_row) ∧
  environments (call world1_sink_down).2 !! 2%positive = Some staging_row ∧
  events (call world1_sink_down).2 = events world1_sink_down ∧
  length (in_flight (backend (call world1_sink_down).2)) = 1%nat ∧
  events (settled (call world1_sink_down).2) = events world1_sink_down ∧
  in_flight (backend (settled (call world1_sink_down).2)) = [].
Proof. cbn zeta. split_and!; vm_compute; reflexivity. Qed.

(** An insertion can also fail because the call that follows was faster:
    in [world2], with a sink that works, "staging" is updated and then
    deleted before the insertion of the first event has completed.  That
    event refers to an environment which is no more, the foreign key
    refuses it, and the log ends with the event of the deletion alone. *)
Example event_outrun :
  let w' :=
    perform_all
      [UpdateCall alice (mkUpdateEnvironment None (Some "soon gone") None)
         2%positive;
       DeleteCall alice 2%positive]
      (settled world2) in
  ev_type <$> in_flight (backend w') =
    [ENVIRONMENT_UPDATED; ENVIRONMENT_DELETED] ∧
  ev_type <$> events (settled world2) =
    [ENVIRONMENT_ADDED; ENVIRONMENT_ADDED] ∧
  ev_type <$> events (settled w') =
    [ENVIRONMENT_ADDED; ENVIRONMENT_ADDED; ENVIRONMENT_DELETED].
Proof. cbn zeta. split_and!; vm_compute; reflexivity. Qed.

(** C5, amended.  A call that succeeds dispatches one insertion of an
    event, and no more, and does not wait for it: when the call returns
    the log is what it was.  The event is of type [ENVIRONMENT_ADDED],
    [ENVIRONMENT_UPDATED] or [ENVIRONMENT_DELETED], with the key and the
    name of the environment created, updated or deleted and the key of its
    project in the metadata.  A call that fails dispatches nothing.
    (Deleting an environment also clears the references the events of the
    log hold to it.)

    An insertion that completes ([settle]) adds its event to the log when
    it succeeds and nothing when it fails.  So once the insertions in
    flight have completed ([settled]) the log has grown by some of their
    events, each at most once and in the order of the calls; and by all
    of them when no insertion fails: the sink works and the users and
    environments the events refer to are still there. *)
Theorem event_per_mutation user w :
  (∀ dto projectId,
     match createEnvironment user dto projectId w with
     | (Ok environment, w') =>
         ∃ p, projects w !! projectId = Some p ∧
           environments w' !! environment.1 = Some environment.2 ∧
           env_projectId environment.2 = projectId ∧
           events w' = events w ∧
           in_flight (backend w') = in_flight (backend w) ++
             [environment_event ENVIRONMENT_ADDED "Environment created"
                user environment projectId (Some (project_name p))
                (Some environment.1)]
     | (Err _, w') =>
         events w' = events w ∧
         in_flight (backend w') = in_flight (backend w)
     end) ∧
  (∀ dto id,
     match updateEnvironment user dto id w with
     | (Ok environment, w') =>
         environment.1 = id ∧
         environments w' !! id = Some environment.2 ∧
         events w' = events w ∧
         in_flight (backend w') = in_flight (backend w) ++
           [environment_event ENVIRONMENT_UPDATED "Environment updated"
              user environment (env_projectId environment.2) None
              (Some id)]
     | (Err _, w') =>
         events w' = events w ∧
         in_flight (backend w') = in_flight (backend w)
     end) ∧
  (∀ id,
     match deleteEnvironment user id w with
     | (Ok _, w') =>
         ∃ old, environments w !! id = Some old ∧
           environments w' !! id = None ∧
           events w' = prisma.forget_environment id <$> events w ∧
           in_flight (backend w') = in_flight (backend w) ++
             [environment_event ENVIRONMENT_DELETED "Environment deleted"
                user (id, old) (env_projectId old) None None]
     | (Err _, w') =>
         events w' = events w ∧
         in_flight (backend w') = in_flight (backend w)
     end) ∧
  match in_flight (backend w) with
  | [] => settle w = w
  | ev :: rest =>
      events (settle w) =
        events w ++ (if event_delivered ev w then [ev] else []) ∧
      in_flight (backend (settle w)) = rest
  end ∧
  (∃ landed,
     landed `sublist_of` in_flight (backend w) ∧
     events (settled w) = events w ++ landed ∧
     in_flight (backend (settled w)) = []) ∧
  (event_outcomes (backend w) = [] →
   (∀ ev, ev ∈ in_flight (backend w) → reference_ok ev w = true) →
   events (settled w) = events w ++ in_flight (backend w)).
Proof.
  split_and!.
  - intros dto projectId.
    destruct (createEnvironment user dto projectId w) as [[res|err] w'] eqn:Hc;
      apply createEnvironment_inv in Hc; [|by subst].
    cbn zeta in Hc. destruct Hc as (p & Hp & _ & _ & -> & ->).
    exists p. split_and!; [done| |reflexivity| |].
    + cbn. apply lookup_insert_eq.
    + cbn. apply events_base.
    + rewrite in_flight_dispatched. cbn. by rewrite backend_base.
  - intros dto id.
    destruct (updateEnvironment user dto id w) as [[res|err] w'] eqn:Hc;
      apply updateEnvironment_inv in Hc; [|by subst].
    cbn zeta in Hc. destruct Hc as (old & Hold & _ & _ & _ & -> & ->).
    split_and!; [done| | |].
    + cbn. apply lookup_insert_eq.
    + cbn. apply events_base.
    + rewrite in_flight_dispatched. cbn. by rewrite backend_base.
  - intros id.
    destruct (deleteEnvironment user id w) as [[res|err] w'] eqn:Hc;
      apply deleteEnvironment_inv in Hc; [|by subst].
    destruct Hc as (old & Hold & _ & _ & ->).
    exists old. split_and!; [done| |done|done].
    cbn. apply lookup_delete_eq.
  - destruct (in_flight (backend w)) as [|ev rest] eqn:Hq.
    + unfold settle. by rewrite Hq.
    + by destruct (settle_step w ev rest Hq) as (? & ? & _).
  - destruct (settle_n_landed _ w eq_refl) as (landed & ? & ? & ? & _).
    by exists landed.
  - intros Hout Href. by apply settle_n_all.
Qed.

Lemma event_per_mutation_witness :
  let w' := (createEnvironment alice staging_dto 7%positive
               (settled world1)).2 in
  events (settled w') =
    events (settled world1) ++
    [environment_event ENVIRONMENT_ADDED "Environment created" alice
       (2%positive, staging_row) 7%positive (Some "backend")
       (Some 2%positive)].
Proof.
  cbn zeta.
  set (w' := (createEnvironment alice staging_dto 7%positive
                (settled world1)).2).
  destruct (event_per_mutation alice w') as (_ & _ & _ & _ & _ & Hall).
  rewrite Hall.
  - vm_compute. reflexivity.
  - vm_compute. reflexivity.
  - intros ev Hin. vm_compute in Hin.
    apply list_elem_of_singleton in Hin as ->. vm_compute. reflexivity.
Defined.

(** ** C6: partial updates *)

(** C6.  After a successful [updateEnvironment] the stored row of the
    environment is the row returned, and every field the payload leaves
    out has the value it had before: the name, the description and the
    [isDefault] flag; the project and the creation time never change. *)
Theorem updateEnvironment_absent_fields user dto id w res w' :
  updateEnvironment user dto id w = (Ok res, w') →
  ∃ old, environments w !! id = Some old ∧
    res.1 = id ∧ environments w' !! id = Some res.2 ∧
    (ue_name dto = None → env_name res.2 = env_name old) ∧
    (ue_description dto = None →
     env_description res.2 = env_description old) ∧
    (ue_isDefault dto = None → env_isDefault res.2 = env_isDefault old) ∧
    env_projectId res.2 = env_projectId old ∧
    env_createdAt res.2 = env_createdAt old.
Proof.
  intros Hu. apply updateEnvironment_inv in Hu. cbn zeta in Hu.
  destruct Hu as (old & Hold & _ & _ & _ & -> & ->).
  exists old. split_and!; try done.
  - cbn. apply lookup_insert_eq.
  - intros H. cbn. by rewrite H.
  - intros H. cbn. by rewrite H.
  - intros H. cbn. by rewrite H.
Qed.

Lemma updateEnvironment_absent_fields_witness :
  ∃ old, environments world2 !! 1%positive = Some old ∧
    env_name old = "dev" ∧ env_isDefault old = true ∧
    ∃ res w',
      updateEnvironment alice
        (mkUpdateEnvironment None (Some "local work") None) 1%positive world2
        = (Ok res, w') ∧
      env_name res.2 = "dev" ∧ env_isDefault res.2 = true ∧
      env_description res.2 = Some "local work".
Proof.
  exists dev_row. split_and!; [vm_compute; reflexivity|done|done|].
  destruct (updateEnvironment alice
              (mkUpdateEnvironment None (Some "local work") None)
              1%positive world2) as [[res|err] w'] eqn:Hu;
    [|vm_compute in Hu; discriminate].
  exists res, w'. split; [done|].
  destruct (updateEnvironment_absent_fields _ _ _ _ _ _ Hu)
    as (old & Hold & _ & _ & Hn & _ & Hd & _).
  assert (old = dev_row) as ->
    by (vm_compute in Hold; by injection Hold as <-).
  split_and!; [by apply Hn|by apply Hd|].
  vm_compute in Hu. by injection Hu as <- _.
Defined.

(** ** C7: listing the environments of a project *)

(** C7, as stated, fails: the search string is not taken literally.  The
    client sends it to the database inside a [LIKE] pattern, where [_]
    stands for any character and [%] for any run of characters.  In
    [world2] the search ["_"] lists "dev" and "staging", none of which
    contains an underscore, and so does ["d_v"] list "dev". *)
Lemma search_wildcard_counterexample :
  (getEnvironmentsOfProject alice 7%positive 0 10 "name" "asc" "_" world2).1 =
    Ok [((1%positive, dev_row), Some alice);
        ((2%positive, staging_row), Some alice)] ∧
  contains "_" (env_name dev_row) = false ∧
  contains "_" (env_name staging_row) = false ∧
  (getEnvironmentsOfProject alice 7%positive 0 10 "name" "asc" "d_v"
     world2).1 = Ok [((1%positive, dev_row), Some alice)] ∧
  contains "d_v" (env_name dev_row) = false.
Proof. split_and!; vm_compute; reflexivity. Qed.

Lemma StronglySorted_window {A} (R : relation A) n m l :
  StronglySorted R l → StronglySorted R (take m (drop n l)).
Proof.
  intros H. rewrite <- (take_drop n l) in H.
  apply StronglySorted_app_1_r in H.
  rewrite <- (take_drop m (drop n l)) in H.
  by apply StronglySorted_app_1_l in H.
Qed.

(** C7, amended.  When the caller may read the environments of the
    project, [getEnvironmentsOfProject] with the name of a column and of a
    direction returns, without changing the world, the window
    [page * limit, page * limit + limit) of a list [all] which holds
    exactly the environments of the project whose name matches the [LIKE]
    pattern [%search%], each once, ordered by the column, text under the
    collation of the database, in the direction asked.  When the search
    string has no [%], no [_] and no backslash, the names that match are
    the names of which it is a substring, case-sensitive.  So every entry
    is a stored environment of the project whose name matches, there are
    at most [limit] entries, they are in order, and each comes with the
    user who last updated it.  (The order among environments that are
    equal on the column is the database's choice, query by query: [all]
    belongs to this call.) *)
Theorem getEnvironmentsOfProject_page user projectId page limit f o search
    w p :
  projects w !! projectId = Some p →
  READ_ENVIRONMENT ∈ effective w user.1 projectId →
  ∃ all,
    NoDup all ∧
    (∀ r : Entity Environment,
       r ∈ all ↔
       environments w !! r.1 = Some r.2 ∧ env_projectId r.2 = projectId ∧
       like ("%" +:+ search +:+ "%") (env_name r.2) = true) ∧
    (wildcard_free search = true →
     ∀ r : Entity Environment,
       r ∈ all ↔
       environments w !! r.1 = Some r.2 ∧ env_projectId r.2 = projectId ∧
       ∃ pre post, env_name r.2 = pre +:+ search +:+ post) ∧
    StronglySorted (ordered (collation_key (backend w)) f o) all ∧
    let window := take limit (drop (page * limit) all) in
    getEnvironmentsOfProject user projectId page limit (column f)
      (direction o) search w =
      (Ok (include_lastUpdatedBy w <$> window), w) ∧
    (∀ r, r ∈ window → r ∈ all) ∧
    (length window ≤ limit)%nat ∧
    StronglySorted (ordered (collation_key (backend w)) f o) window ∧
    ∀ x, x ∈ include_lastUpdatedBy w <$> window →
      x.1 ∈ window ∧
      match env_lastUpdatedById x.1.2 with
      | Some uid => x.2 = (λ u, (uid, u)) <$> users w !! uid
      | None => x.2 = None
      end.
Proof.
  intros Hp Hauth.
  set (R := ordered (collation_key (backend w)) f o).
  set (met := prisma.scanned projectId search (page * limit) limit w).
  exists (merge_sort R met).
  assert (StronglySorted R (merge_sort R met)) as Hs
    by apply (StronglySorted_merge_sort _).
  assert (∀ r : Entity Environment,
            r ∈ merge_sort R met ↔
            environments w !! r.1 = Some r.2 ∧ env_projectId r.2 = projectId ∧
            name_contains search (env_name r.2) = true) as Hin.
  { intros r. rewrite merge_sort_Permutation. unfold met, prisma.scanned.
    rewrite merge_sort_Permutation. unfold listed.
    rewrite list_elem_of_filter, rows_lookup. tauto. }
  split_and!.
  - rewrite merge_sort_Permutation. unfold met, prisma.scanned.
    rewrite merge_sort_Permutation. apply NoDup_filter, NoDup_rows.
  - exact Hin.
  - intros Hplain r. rewrite Hin, (name_contains_plain _ _ Hplain).
    by rewrite contains_spec.
  - done.
  - cbn zeta. split_and!.
    + unfold getEnvironmentsOfProject.
      erewrite bind_ok by (by apply getProjectWithAuthority_ok).
      unfold prisma.environment_findMany.
      by rewrite parse_column, parse_direction.
    + intros r Hr.
      by apply (subseteq_drop (page * limit)), (subseteq_take limit).
    + rewrite length_take. lia.
    + by apply StronglySorted_window.
    + intros x (r & -> & Hr)%list_elem_of_fmap. split; [done|].
      unfold include_lastUpdatedBy. cbn.
      destruct (env_lastUpdatedById r.2) as [uid|]; [|done]. cbn.
      by destruct (users w !! uid).
Qed.

Lemma getEnvironmentsOfProject_page_witness :
  ∃ res,
    getEnvironmentsOfProject alice 7%positive 0 10 "name" "asc" "" world2 =
      (Ok res, world2) ∧
    (length res ≤ 10)%nat.
Proof.
  destruct (getEnvironmentsOfProject_page alice 7%positive 0 10 by_name asc
              "" world2 (mkProject "backend"))
    as (all & _ & _ & _ & _ & Hrun & _ & Hlen & _).
  - vm_compute. reflexivity.
  - compute_done.
  - eexists. split; [exact Hrun|]. by rewrite length_fmap.
Defined.

(** The default listing of [world2], its two pages of one entry, and a
    search that differs from a name by case only. *)
Example listing_world2 :
  (getEnvironmentsOfProject alice 7%positive 0 10 "name" "asc" "" world2).1 =
    Ok [((1%positive, dev_row), Some alice);
        ((2%positive, staging_row), Some alice)] ∧
  (getEnvironmentsOfProject alice 7%positive 0 1 "name" "desc" "" world2).1 =
    Ok [((2%positive, staging_row), Some alice)] ∧
  (getEnvironmentsOfProject alice 7%positive 1 1 "name" "desc" "" world2).1 =
    Ok [((1%positive, dev_row), Some alice)] ∧
  (getEnvironmentsOfProject alice 7%positive 0 10 "name" "asc" "Dev"
     world2).1 = Ok [] ∧
  (getEnvironmentsOfProject alice 7%positive 0 10 "name" "asc" "ev"
     world2).1 = Ok [((1%positive, dev_row), Some alice)] ∧
  (getEnvironmentsOfProject bob 7%positive 0 10 "name" "asc" "" world2).1 =
    Err Forbidden.
Proof. split_and!; vm_compute; reflexivity. Qed.

(** Each column gives its own order, and ["desc"] turns it round
    ([world_columns]).  A name that is not a column, or a direction that
    is none, is refused. *)
Example listing_by_column :
  let names (sort order : string) :=
    (λ x : Entity Environment * option (Entity User), env_name x.1.2) <$>
      page_of (getEnvironmentsOfProject alice 7%positive 0 10 sort order ""
                 world_columns) in
  names "name" "asc" = ["Alpha"; "mid"; "zeta"] ∧
  names "name" "desc" = ["zeta"; "mid"; "Alpha"] ∧
  names "createdAt" "asc" = ["zeta"; "Alpha"; "mid"] ∧
  names "createdAt" "desc" = ["mid"; "Alpha"; "zeta"] ∧
  names "updatedAt" "asc" = ["Alpha"; "zeta"; "mid"] ∧
  names "updatedAt" "desc" = ["mid"; "zeta"; "Alpha"] ∧
  names "description" "asc" = ["mid"; "zeta"; "Alpha"] ∧
  names "description" "desc" = ["Alpha"; "zeta"; "mid"] ∧
  take 1 (names "isDefault" "desc") = ["Alpha"] ∧
  drop 2 (names "isDefault" "asc") = ["Alpha"] ∧
  (getEnvironmentsOfProject alice 7%positive 0 10 "Name" "asc" ""
     world_columns).1 = Err InternalError ∧
  (getEnvironmentsOfProject alice 7%positive 0 10 "name" "ASC" ""
     world_columns).1 = Err InternalError.
Proof. cbn zeta. split_and!; vm_compute; reflexivity. Qed.

(** The order of text is the collation's.  Under the byte-wise collation
    "Alpha" comes before "mid" and "zeta"; under a collation that places
    the upper case letters after the lower case ones it comes after
    them. *)
Example listing_by_collation :
  let names (w : World) :=
    (λ x : Entity Environment * option (Entity User), env_name x.1.2) <$>
      page_of (getEnvironmentsOfProject alice 7%positive 0 10 "name" "asc" ""
                 w) in
  names world_columns = ["Alpha"; "mid"; "zeta"] ∧
  names (on_backend (mkBackend swap_case (λ _ _ _, 0%nat) [] []) world_columns)
    = ["mid"; "zeta"; "Alpha"].
Proof. cbn zeta. split_and!; vm_compute; reflexivity. Qed.

(** What [%], [_] and the backslash do in a search string. *)
Example search_patterns :
  name_contains "" "dev" = true ∧
  name_contains "ev" "dev" = true ∧
  name_contains "Dev" "dev" = false ∧
  name_contains "_" "" = false ∧
  name_contains "d%v" "development" = true ∧
  name_contains "d_v" "dev" = true ∧
  name_contains "d_v" "d_v" = true ∧
  name_contains (String backslash "_") "dev" = false ∧
  name_contains (String backslash "_") "d_v" = true ∧
  name_contains (String "a" (String backslash "")) "xa%" = true ∧
  name_contains (String "a" (String backslash "")) "xa%b" = false.
Proof. split_and!; vm_compute; reflexivity. Qed.

(** ** C8: creating under a name the project already has *)

(** C8.  When the caller may create environments in the project and an
    environment of the project already carries the requested name,
    [createEnvironment] fails with [Conflict] and the world it leaves is the
    world it found: nothing is created, nothing is modified. *)
Theorem createEnvironment_conflict user dto projectId w p i e :
  projects w !! projectId = Some p →
  CREATE_ENVIRONMENT ∈ effective w user.1 projectId →
  environments w !! i = Some e →
  env_name e = ce_name dto →
  env_projectId e = projectId →
  createEnvironment user dto projectId w = (Err Conflict, w).
Proof.
  intros Hp Hauth Hi Hn Hpid. unfold createEnvironment.
  erewrite bind_ok by (by apply getProjectWithAuthority_ok).
  erewrite bind_ok by apply environmentExists_run.
  rewrite bool_decide_eq_true_2; [done|].
  apply exists_is_Some. eauto.
Qed.

Lemma createEnvironment_conflict_witness :
  createEnvironment alice (mkCreateEnvironment "dev" None None) 7%positive
    world2 = (Err Conflict, world2).
Proof.
  apply (createEnvironment_conflict alice _ 7%positive world2
           (mkProject "backend") 1%positive dev_row).
  - vm_compute. reflexivity.
  - compute_done.
  - vm_compute. reflexivity.
  - reflexivity.
  - reflexivity.
Defined.

(** ** C9: the count is read before the transaction *)

(** C9, as stated, fails: the count is read by a query of its own, before
    [$transaction].  Alice asks to make "dev", the default of two
    environments, a regular one; the guards pass, the count being 2.  Before
    the transaction starts "staging" is deleted, which leaves "dev" alone
    in its project; the transaction then commits all the same, and the only
    environment of the project is no longer the default one, which the
    guard, had it run on the world the write sees, would have refused. *)
Lemma count_outside_transaction_counterexample :
  let dto := mkUpdateEnvironment None None (Some false) in
  let ops := update_ops alice dto 1%positive dev_row in
  let w_between := perform (DeleteCall alice 2%positive) world2 in
  updateEnvironment_ops alice dto 1%positive world2 = (Ok ops, world2) ∧
  length (members world2 7%positive) = 2%nat ∧
  length (members w_between 7%positive) = 1%nat ∧
  (∃ w_after,
     updateEnvironment_commit alice ops w_between =
       (Ok (1%positive,
            mkEnvironment "dev" (Some "development") 1 3 false
              (Some 1%positive) 7%positive), w_after) ∧
     length (members w_after 7%positive) = 1%nat ∧
     defaults w_after 7%positive = []) ∧
  updateEnvironment alice dto 1%positive w_between =
    (Err InvalidOperation, w_between).
Proof.
  cbn zeta. split_and!; try (vm_compute; reflexivity).
  eexists. split_and!; vm_compute; reflexivity.
Qed.

(** C9, amended.  The guards of [updateEnvironment], the count among them,
    are evaluated on the world [w] of the call, before the transaction and
    outside it.  The transaction holds the writes only: run on any later
    world [w1] in which the environment still exists, the caller is still a
    user and no other environment of the project holds the new name, it
    commits, whatever the number of environments of the project is in
    [w1], and stores the [isDefault] flag computed from [w]. *)
Theorem updateEnvironment_commit_ignores_count user dto id w ops w0 w1 cur :
  updateEnvironment_ops user dto id w = (Ok ops, w0) →
  environments w1 !! id = Some cur →
  is_Some (users w1 !! user.1) →
  (∀ j e, environments w1 !! j = Some e → j ≠ id →
          env_projectId e = env_projectId cur →
          env_name e ≠ default (env_name cur) (ue_name dto)) →
  w0 = w ∧
  ∃ old res w2,
    environments w !! id = Some old ∧
    updateEnvironment_commit user ops w1 = (Ok res, w2) ∧
    res.1 = id ∧ environments w2 !! id = Some res.2 ∧
    env_isDefault res.2 = default (env_isDefault old) (ue_isDefault dto).
Proof.
  intros Hops Hcur Huser Hfree.
  apply updateEnvironment_ops_inv in Hops as [-> Hops]. split; [done|].
  destruct Hops as (old & Hold & _ & _ & _ & ->). exists old.
  set (clear := default false (ue_isDefault dto)).
  set (b := base clear (env_projectId old) w1).
  set (cur' := (if clear
                then prisma.updateMany_row (env_projectId old) false (clock w1)
                else Datatypes.id) cur).
  assert (environments b !! id = Some cur') as Hcur'.
  { subst b. by rewrite base_lookup, Hcur. }
  assert (users b = users w1) as Hub by (subst b; by destruct clear).
  set (e := prisma.update_row cur' (update_data user dto old) (clock b)).
  assert (prisma.run_op (EnvironmentUpdate id (update_data user dto old)) b
          = (Ok (Row (id, e)), tick (set_environments (insert id e) b)))
    as Hrun.
  { cbn [prisma.run_op]. unfold prisma.environment_update.
    rewrite run_bind, run_gets, Hcur', run_bind.
    rewrite bool_decide_eq_true_2 by (by rewrite Hub).
    cbn [unless]. rewrite run_ret, run_bind.
    destruct (prisma.unique_violation _ _ _ _) eqn:Hex; [exfalso|done].
    apply bool_decide_eq_true_1 in Hex.
    apply Exists_exists in Hex as ([j x] & Hin & [Hn Hp] & Hne).
    apply rows_lookup in Hin. cbn [fst snd] in *.
    subst b. rewrite base_lookup in Hin.
    apply fmap_Some in Hin as (y & Hy & ->).
    rewrite touched_name in Hn. rewrite touched_projectId in Hp.
    subst cur'. rewrite touched_projectId in Hp.
    apply (Hfree j y Hy); [congruence|done|].
    rewrite Hn. subst e. cbn [prisma.update_row env_name update_data ud_name].
    by rewrite touched_name. }
  exists (id, e), (dispatched (updated_event user (id, e))
                     (tick (set_environments (insert id e) b))).
  split_and!; [done| |done| |done].
  - unfold updateEnvironment_commit, update_ops. fold clear.
    assert (prisma.transaction
              ((if clear then [makeAllNonDefault (env_projectId old)] else [])
               ++ [EnvironmentUpdate id (update_data user dto old)]) w1
            = (Ok ((if clear then [BatchPayload
                      (length (filter (λ r, env_projectId r.2 = env_projectId old)
                                 (rows w1)))] else []) ++ [Row (id, e)]),
               tick (set_environments (insert id e) b))) as Ht.
    { unfold prisma.transaction. subst b. destruct clear; cbn [app].
      - rewrite run_ops_cleared.
        change (cleared (env_projectId old) w1)
          with (base true (env_projectId old) w1).
        by rewrite Hrun.
      - rewrite run_ops_singleton.
        change w1 with (base false (env_projectId old) w1) at 1.
        by rewrite Hrun. }
    rewrite run_bind, Ht. unfold last_row. rewrite last_snoc. cbn iota beta.
    by rewrite run_bind, run_ret, run_bind, createEvent_run, run_ret.
  - cbn. apply lookup_insert_eq.
Qed.

Lemma updateEnvironment_commit_ignores_count_witness :
  let dto := mkUpdateEnvironment None None (Some false) in
  let w_between := perform (DeleteCall alice 2%positive) world2 in
  world2 = world2 ∧
  ∃ old res w2,
    environments world2 !! 1%positive = Some old ∧
    updateEnvironment_commit alice (update_ops alice dto 1%positive dev_row)
      w_between = (Ok res, w2) ∧
    res.1 = 1%positive ∧ environments w2 !! 1%positive = Some res.2 ∧
    env_isDefault res.2 = default (env_isDefault old) (ue_isDefault dto).
Proof.
  cbn zeta.
  apply (updateEnvironment_commit_ignores_count alice
           (mkUpdateEnvironment None None (Some false)) 1%positive world2
           _ world2 (perform (DeleteCall alice 2%positive) world2) dev_row).
  - vm_compute. reflexivity.
  - vm_compute. reflexivity.
  - vm_compute. eauto.
  - intros j e Hj Hne _.
    destruct (decide (j = 1%positive)) as [->|Hj1]; [done|].
    assert (environments (perform (DeleteCall alice 2%positive) world2)
            = {[ 1%positive := dev_row ]}) as Heq
      by (vm_compute; reflexivity).
    rewrite Heq, lookup_singleton_ne in Hj by done. done.
Defined.

(** ** C10: a failing update writes nothing *)

(** C10.  When [updateEnvironment] throws, the world is exactly the world
    before the call; and when the failure is [NotFound], [Forbidden],
    [Conflict] or [InvalidOperation], it was raised by the reads and guards
    that precede the transaction, so that no statement was issued at
    all. *)
Theorem updateEnvironment_atomic user dto id w err w' :
  updateEnvironment user dto id w = (Err err, w') →
  w' = w ∧
  (err ∈ [NotFound; Forbidden; Conflict; InvalidOperation] →
   updateEnvironment_ops user dto id w = (Err err, w)).
Proof.
  intros Hu. split; [by apply updateEnvironment_inv in Hu|].
  intros Herr. unfold updateEnvironment in Hu. rewrite run_bind in Hu.
  destruct (updateEnvironment_ops user dto id w) as [[ops|e] w1] eqn:Hops.
  - exfalso. pose proof Hops as Hops'.
    apply updateEnvironment_ops_inv in Hops' as [-> Hops'].
    destruct Hops' as (old & Hold & _ & _ & _ & ->).
    apply (updateEnvironment_commit_inv _ _ _ _ _ _ _ Hold) in Hu as [-> _].
    repeat (apply elem_of_cons in Herr as [?|Herr]; [done|]).
    by apply elem_of_nil in Herr.
  - apply updateEnvironment_ops_inv in Hops as [-> _]. by injection Hu as <- <-.
Qed.

Lemma updateEnvironment_atomic_witness :
  world2 = world2 ∧
  (Forbidden ∈ [NotFound; Forbidden; Conflict; InvalidOperation] →
   updateEnvironment_ops bob (mkUpdateEnvironment None None (Some false))
     1%positive world2 = (Err Forbidden, world2)).
Proof.
  apply (updateEnvironment_atomic bob _ 1%positive world2 Forbidden world2).
  vm_compute. reflexivity.
Defined.

(** * Further properties of the service *)

(** ** Lists and tables *)

Lemma NoDup_singleton_eq {A} (l : list A) x :
  NoDup l → (∀ y, y ∈ l ↔ y = x) → l = [x].
Proof.
  intros Hnd Hl. destruct l as [|y [|z l]].
  - exfalso. eapply not_elem_of_nil, Hl. done.
  - f_equal. apply Hl. left.
  - exfalso. apply NoDup_cons in Hnd as [Hy _]. apply Hy.
    assert (y = x) as -> by (apply Hl; left).
    assert (z = x) as -> by (apply Hl; right; left). left.
Qed.

Lemma length_filter_fmap_id {A} (P : A → Prop) `{∀ x, Decision (P x)}
    (f : A → A) l :
  (∀ x, P (f x) ↔ P x) →
  length (filter P (f <$> l)) = length (filter P l).
Proof.
  intros Hf. induction l as [|x l IH]; [done|]. cbn [fmap list_fmap].
  rewrite !filter_cons. destruct (decide (P (f x))) as [Hy|Hn].
  - rewrite decide_True by (by apply Hf). cbn. by rewrite IH.
  - rewrite decide_False by (by rewrite <- Hf). done.
Qed.

Lemma members_base clear projectId w q :
  length (members (base clear projectId w) q) = length (members w q).
Proof.
  destruct clear; [|done]. unfold members, rows. cbn.
  rewrite map_to_list_fmap.
  apply (length_filter_fmap_id (λ r : Entity Environment, env_projectId r.2 = q)).
  intros [i e]. cbn. unfold prisma.updateMany_row. by case_decide.
Qed.

Lemma members_insert_new w' w0 i e q :
  environments w' = <[i:=e]> (environments w0) →
  environments w0 !! i = None →
  length (members w' q) =
    ((if decide (env_projectId e = q) then 1 else 0)
     + length (members w0 q))%nat.
Proof.
  intros Hw Hnew. unfold members, rows. rewrite Hw.
  rewrite (map_to_list_insert _ _ _ Hnew), filter_cons. cbn [snd].
  by case_decide.
Qed.

Lemma members_delete w' w0 i e q :
  environments w' = delete i (environments w0) →
  environments w0 !! i = Some e →
  length (members w0 q) =
    ((if decide (env_projectId e = q) then 1 else 0)
     + length (members w' q))%nat.
Proof.
  intros Hw Hold. unfold members, rows. rewrite Hw.
  rewrite <- (map_to_list_delete _ _ _ Hold), filter_cons. cbn [snd].
  by case_decide.
Qed.

Lemma unique_violation_false self name projectId w :
  (∀ j e, environments w !! j = Some e → Some j ≠ self →
          env_projectId e = projectId → env_name e ≠ name) →
  prisma.unique_violation self name projectId w = false.
Proof.
  intros Hfree. apply bool_decide_eq_false_2. intros Hex.
  apply Exists_exists in Hex as ([j x] & Hin & [Hn Hp] & Hne).
  apply rows_lookup in Hin. cbn [fst snd] in *.
  by apply (Hfree j x Hin Hne Hp).
Qed.

Lemma unique_violation_false_inv self name projectId w j e :
  prisma.unique_violation self name projectId w = false →
  environments w !! j = Some e → Some j ≠ self →
  env_projectId e = projectId → env_name e ≠ name.
Proof.
  intros Hu Hj Hne Hp Hn. apply bool_decide_eq_false_1 in Hu. apply Hu.
  apply Exists_exists. exists (j, e). split; [by apply rows_lookup|done].
Qed.

Lemma base_users clear projectId w :
  users (base clear projectId w) = users w.
Proof. by destruct clear. Qed.

Lemma base_projects clear projectId w :
  projects (base clear projectId w) = projects w.
Proof. by destruct clear. Qed.

Lemma base_grants clear projectId w :
  grants (base clear projectId w) = grants w.
Proof. by destruct clear. Qed.

Lemma base_free clear projectId w self name q :
  (∀ j e, environments w !! j = Some e → Some j ≠ self →
          env_projectId e = q → env_name e ≠ name) →
  ∀ j e, environments (base clear projectId w) !! j = Some e →
         Some j ≠ self → env_projectId e = q → env_name e ≠ name.
Proof.
  intros Hfree j e Hj Hne Hq. rewrite base_lookup in Hj.
  apply fmap_Some in Hj as (y & Hy & ->).
  rewrite touched_projectId in Hq. rewrite touched_name. eauto.
Qed.

(** ** The calls that succeed *)

Lemma transaction_run (clear : bool) projectId op w r w' :
  prisma.run_op op (base clear projectId w) = (Ok r, w') →
  ∃ rs, prisma.transaction
          ((if clear then [makeAllNonDefault projectId] else []) ++ [op]) w
        = (Ok rs, w') ∧ last rs = Some r.
Proof.
  intros Hrun. unfold prisma.transaction. destruct clear; cbn [app].
  - rewrite run_ops_cleared.
    change (cleared projectId w) with (base true projectId w).
    rewrite Hrun. eexists. split; [done|]. done.
  - rewrite run_ops_singleton.
    change w with (base false projectId w) at 1.
    rewrite Hrun. eexists. split; [done|]. done.
Qed.

Lemma environment_create_run data w :
  is_Some (projects w !! cd_projectId data) →
  is_Some (users w !! cd_lastUpdatedById data) →
  (∀ j e, environments w !! j = Some e →
          env_projectId e = cd_projectId data →
          env_name e ≠ cd_name data) →
  let i := fresh (dom (environments w) ∪ issued w) in
  let e := prisma.create_row data (clock w) in
  prisma.environment_create data w =
    (Ok (Row (i, e)), tick (issue i (set_environments (insert i e) w))).
Proof.
  intros Hp Hu Hfree. cbn zeta. unfold prisma.environment_create.
  rewrite run_bind, run_gets.
  rewrite run_bind, (bool_decide_eq_true_2 _ Hp). cbn [unless].
  rewrite run_ret, run_bind, (bool_decide_eq_true_2 _ Hu). cbn [unless].
  rewrite run_ret, run_bind.
  rewrite unique_violation_false by (intros j e Hj _; apply (Hfree j e Hj)).
  done.
Qed.

Lemma environment_update_run id data w old :
  environments w !! id = Some old →
  is_Some (users w !! ud_lastUpdatedById data) →
  (∀ j e, environments w !! j = Some e → j ≠ id →
          env_projectId e = env_projectId old →
          env_name e ≠ default (env_name old) (ud_name data)) →
  let e := prisma.update_row old data (clock w) in
  prisma.environment_update id data w =
    (Ok (Row (id, e)), tick (set_environments (insert id e) w)).
Proof.
  intros Hold Hu Hfree. cbn zeta. unfold prisma.environment_update.
  rewrite run_bind, run_gets, Hold.
  rewrite run_bind, (bool_decide_eq_true_2 _ Hu). cbn [unless].
  rewrite run_ret, run_bind.
  rewrite unique_violation_false; [done|].
  intros j e Hj Hne. apply (Hfree j e Hj). congruence.
Qed.

Lemma environment_delete_run id w old :
  environments w !! id = Some old →
  prisma.environment_delete id w =
    (Ok (id, old),
     set_events (fmap (prisma.forget_environment id))
       (set_environments (delete id) w)).
Proof.
  intros Hold. unfold prisma.environment_delete.
  by rewrite run_bind, run_gets, Hold.
Qed.

Lemma createEnvironment_run user dto projectId w p :
  projects w !! projectId = Some p →
  CREATE_ENVIRONMENT ∈ effective w user.1 projectId →
  is_Some (users w !! user.1) →
  (∀ j e, environments w !! j = Some e → env_projectId e = projectId →
          env_name e ≠ ce_name dto) →
  let b := base (default false (ce_isDefault dto)) projectId w in
  let i := fresh (dom (environments b) ∪ issued b) in
  let e := prisma.create_row (create_data user dto projectId) (clock b) in
  createEnvironment user dto projectId w =
    (Ok (i, e),
     dispatched (added_event user (i, e) projectId p)
       (tick (issue i (set_environments (insert i e) b)))).
Proof.
  intros Hp Hauth Hu Hfree. cbn zeta. unfold createEnvironment.
  erewrite bind_ok by (by apply getProjectWithAuthority_ok).
  erewrite bind_ok by apply environmentExists_run.
  rewrite bool_decide_eq_false_2.
  2:{ intros (j & e & Hj & Hn & Hq)%exists_is_Some. by eapply Hfree. }
  rewrite run_bind, run_throw_if, run_bind.
  set (clear := default false (ce_isDefault dto)).
  set (b := base clear projectId w).
  pose proof (environment_create_run (create_data user dto projectId) b)
    as Hrun.
  cbn zeta in Hrun. cbn [create_data cd_projectId cd_lastUpdatedById cd_name]
    in Hrun.
  destruct (transaction_run clear projectId
              (EnvironmentCreate (create_data user dto projectId)) w _ _
              (Hrun ltac:(subst b; rewrite base_projects, Hp; eauto)
                    ltac:(subst b; by rewrite base_users)
                    ltac:(subst b; intros j e Hj;
                          by apply (base_free clear projectId w None
                                      (ce_name dto) projectId
                                      (λ j e Hj _, Hfree j e Hj) j e Hj))))
    as (rs & Ht & Hlast).
  unfold create_data in Ht. rewrite Ht.
  unfold last_row. rewrite Hlast. cbn iota beta.
  by rewrite run_bind, run_ret, run_bind, createEvent_run, run_ret.
Qed.

Lemma updateEnvironment_commit_run user dto id old w cur :
  environments w !! id = Some cur →
  is_Some (users w !! user.1) →
  (∀ j e, environments w !! j = Some e → j ≠ id →
          env_projectId e = env_projectId cur →
          env_name e ≠ default (env_name cur) (ue_name dto)) →
  let b := base (default false (ue_isDefault dto)) (env_projectId old) w in
  let e := prisma.update_row cur (update_data user dto old) (clock b) in
  updateEnvironment_commit user (update_ops user dto id old) w =
    (Ok (id, e),
     dispatched (updated_event user (id, e))
       (tick (set_environments (insert id e) b))).
Proof.
  intros Hcur Hu Hfree. cbn zeta.
  set (clear := default false (ue_isDefault dto)).
  set (b := base clear (env_projectId old) w).
  set (cur' := (if clear
                then prisma.updateMany_row (env_projectId old) false (clock w)
                else Datatypes.id) cur).
  assert (environments b !! id = Some cur') as Hcur'.
  { subst b. by rewrite base_lookup, Hcur. }
  pose proof (environment_update_run id (update_data user dto old) b cur'
                Hcur') as Hrun.
  cbn zeta in Hrun. cbn [update_data ud_lastUpdatedById ud_name] in Hrun.
  subst cur'. rewrite update_row_touched, touched_name, touched_projectId
    in Hrun.
  destruct (transaction_run clear (env_projectId old)
              (EnvironmentUpdate id (update_data user dto old)) w _ _
              (Hrun ltac:(subst b; by rewrite base_users)
                    ltac:(subst b; intros j e Hj Hne;
                          apply (base_free clear (env_projectId old) w
                                   (Some id) _ (env_projectId cur)
                                   (λ j e Hj Hne, Hfree j e Hj
                                      ltac:(congruence)) j e Hj);
                          congruence)))
    as (rs & Ht & Hlast).
  unfold updateEnvironment_commit, update_ops. fold clear.
  rewrite run_bind, Ht.
  unfold last_row. rewrite Hlast. cbn iota beta.
  by rewrite run_bind, run_ret, run_bind, createEvent_run, run_ret.
Qed.

Lemma world2_lookup j e :
  environments world2 !! j = Some e →
  (j = 1%positive ∧ e = dev_row) ∨ (j = 2%positive ∧ e = staging_row).
Proof.
  assert (environments world2
          = <[1%positive:=dev_row]> (<[2%positive:=staging_row]> ∅)) as ->
    by (vm_compute; reflexivity).
  intros Hj. apply lookup_insert_Some in Hj as [[<- <-]|[_ Hj]]; [by left|].
  apply lookup_insert_Some in Hj as [[<- <-]|[_ Hj]]; [by right|].
  by rewrite lookup_empty in Hj.
Qed.

(** ** Creating *)

(** X1.  [createEnvironment] succeeds as soon as the project exists, the
    caller may create environments in it and has an account, and no
    environment of this project carries the name; environments of other
    projects may carry it.  The environment returned is stored under a key
    that was free, with the name, the description and the flag of the
    payload (false when the flag is absent), in the project, last updated
    by the caller; the project has one environment more. *)
Theorem createEnvironment_succeeds user dto projectId w p :
  projects w !! projectId = Some p →
  CREATE_ENVIRONMENT ∈ effective w user.1 projectId →
  is_Some (users w !! user.1) →
  (∀ j e, environments w !! j = Some e → env_projectId e = projectId →
          env_name e ≠ ce_name dto) →
  ∃ i e w',
    createEnvironment user dto projectId w = (Ok (i, e), w') ∧
    environments w !! i = None ∧
    environments w' !! i = Some e ∧
    env_name e = ce_name dto ∧
    env_description e = ce_description dto ∧
    env_isDefault e = default false (ce_isDefault dto) ∧
    env_projectId e = projectId ∧
    env_lastUpdatedById e = Some user.1 ∧
    length (members w' projectId) = S (length (members w projectId)).
Proof.
  intros Hp Hauth Hu Hfree.
  pose proof (createEnvironment_run user dto projectId w p Hp Hauth Hu Hfree)
    as Hrun. cbn zeta in Hrun.
  set (clear := default false (ce_isDefault dto)) in *.
  set (b := base clear projectId w) in *.
  set (i := fresh (dom (environments b) ∪ issued b)) in *.
  assert (environments b !! i = None) as Hnew.
  { apply not_elem_of_dom. intros Hin.
    apply (is_fresh (dom (environments b) ∪ issued b)).
    by apply elem_of_union_l. }
  eexists i, _, _. split; [exact Hrun|].
  split_and!; try done.
  - subst b. rewrite base_lookup in Hnew. by apply fmap_None in Hnew.
  - cbn. apply lookup_insert_eq.
  - erewrite (members_insert_new _ b i _ projectId); [|reflexivity|done].
    cbn. rewrite decide_True by done. subst b. by rewrite members_base.
Qed.

Lemma createEnvironment_succeeds_witness :
  ∃ i e w',
    createEnvironment alice (mkCreateEnvironment "prod" None None)
      7%positive world2 = (Ok (i, e), w') ∧
    environments world2 !! i = None ∧
    environments w' !! i = Some e ∧
    env_name e = "prod" ∧
    env_description e = None ∧
    env_isDefault e = false ∧
    env_projectId e = 7%positive ∧
    env_lastUpdatedById e = Some 1%positive ∧
    length (members w' 7%positive) = S (length (members world2 7%positive)).
Proof.
  apply (createEnvironment_succeeds alice
           (mkCreateEnvironment "prod" None None) 7%positive world2
           (mkProject "backend")).
  - vm_compute. reflexivity.
  - compute_done.
  - vm_compute. eauto.
  - intros j e [[_ ->]|[_ ->]]%world2_lookup _; discriminate.
Defined.

(** ** Updating *)

Lemma name_conflict_false dto old id w :
  environments w !! id = Some old →
  (∀ j e, environments w !! j = Some e → j ≠ id →
          env_projectId e = env_projectId old →
          env_name e ≠ default (env_name old) (ue_name dto)) →
  ue_name dto ≠ Some (env_name old) ∨ env_name old = "" →
  name_conflict dto old w = false.
Proof.
  intros Hold Hfree Hnew. unfold name_conflict.
  destruct (ue_name dto) as [n|] eqn:Hn; [|done].
  destruct (truthy n) eqn:Ht; [|done]. cbn [andb].
  assert (env_name old ≠ n) as Hne.
  { intros <-. destruct Hnew as [?|He]; [done|]. by rewrite He in Ht. }
  apply orb_false_intro; apply bool_decide_eq_false_2; [done|].
  intros (j & e & Hj & He & Hp)%exists_is_Some.
  destruct (decide (j = id)) as [->|Hji]; [congruence|].
  by apply (Hfree j e Hj Hji Hp).
Qed.

(** X2.  [updateEnvironment] succeeds whenever the caller may update the
    environment and has an account, no other environment of the project
    carries the name the environment is to have, the payload does not
    repeat the environment's own (non-empty) name, and the call is not the
    one that would make the only environment of a project a regular one.
    In particular the default environment may be made a regular one as
    soon as the project has a second environment.  The row stored
    afterwards is the one returned: the fields of the payload where it has
    them, the old ones elsewhere, last updated by the caller. *)
Theorem updateEnvironment_succeeds user dto id w old :
  environments w !! id = Some old →
  UPDATE_ENVIRONMENT ∈ effective w user.1 (env_projectId old) →
  is_Some (users w !! user.1) →
  (∀ j e, environments w !! j = Some e → j ≠ id →
          env_projectId e = env_projectId old →
          env_name e ≠ default (env_name old) (ue_name dto)) →
  ue_name dto ≠ Some (env_name old) ∨ env_name old = "" →
  ¬ (ue_isDefault dto = Some false ∧ env_isDefault old = true ∧
     length (members w (env_projectId old)) = 1%nat) →
  ∃ e w',
    updateEnvironment user dto id w = (Ok (id, e), w') ∧
    environments w' !! id = Some e ∧
    env_name e = default (env_name old) (ue_name dto) ∧
    env_description e =
      from_option Some (env_description old) (ue_description dto) ∧
    env_isDefault e = default (env_isDefault old) (ue_isDefault dto) ∧
    env_projectId e = env_projectId old ∧
    env_createdAt e = env_createdAt old ∧
    env_lastUpdatedById e = Some user.1.
Proof.
  intros Hold Hauth Hu Hfree Hnew Hguard. unfold updateEnvironment.
  rewrite run_bind, (updateEnvironment_ops_run _ _ _ _ _ Hold Hauth).
  rewrite (name_conflict_false _ _ _ _ Hold Hfree Hnew).
  assert (last_environment_guard dto old w = false) as ->.
  { unfold last_environment_guard.
    destruct (bool_decide (ue_isDefault dto = Some false)) eqn:H1; [|done].
    destruct (env_isDefault old) eqn:H2; [|done]. cbn [andb].
    apply bool_decide_eq_false_2. intros H3. apply Hguard.
    apply bool_decide_eq_true_1 in H1. done. }
  rewrite (updateEnvironment_commit_run user dto id old w old Hold Hu Hfree).
  eexists _, _. split; [reflexivity|]. split_and!; try done.
  cbn. apply lookup_insert_eq.
Qed.

Lemma updateEnvironment_succeeds_witness :
  ∃ e w',
    updateEnvironment alice (mkUpdateEnvironment (Some "qa") None (Some false))
      1%positive world2 = (Ok (1%positive, e), w') ∧
    environments w' !! 1%positive = Some e ∧
    env_name e = "qa" ∧
    env_description e = Some "development" ∧
    env_isDefault e = false ∧
    env_projectId e = 7%positive ∧
    env_createdAt e = 1%nat ∧
    env_lastUpdatedById e = Some 1%positive.
Proof.
  apply (updateEnvironment_succeeds alice
           (mkUpdateEnvironment (Some "qa") None (Some false)) 1%positive
           world2 dev_row).
  - vm_compute. reflexivity.
  - compute_done.
  - vm_compute. eauto.
  - intros j e [[-> ->]|[_ ->]]%world2_lookup Hne _; [done|discriminate].
  - left. discriminate.
  - intros (_ & _ & Hlen). vm_compute in Hlen. discriminate.
Defined.

(** ** Deleting *)

(** X3.  [deleteEnvironment] succeeds whenever the caller may delete the
    environment and the environment is a regular one.  The environment is
    removed, every other row of the table is left as it was, and its
    project has one environment less. *)
Theorem deleteEnvironment_succeeds user id w old :
  environments w !! id = Some old →
  DELETE_ENVIRONMENT ∈ effective w user.1 (env_projectId old) →
  env_isDefault old = false →
  ∃ w',
    deleteEnvironment user id w = (Ok tt, w') ∧
    environments w' = delete id (environments w) ∧
    S (length (members w' (env_projectId old))) =
      length (members w (env_projectId old)).
Proof.
  intros Hold Hauth Hd. unfold deleteEnvironment.
  erewrite bind_ok by (by apply getEnvironmentWithAuthority_ok).
  cbn [fst snd]. rewrite run_bind, run_throw_if, Hd.
  erewrite bind_ok by (by apply environment_delete_run).
  rewrite createEvent_run.
  set (w' := dispatched _ _). exists w'. split; [reflexivity|]. split; [done|].
  rewrite (members_delete w' w id old (env_projectId old)); [|done|done].
  by rewrite decide_True.
Qed.

Lemma deleteEnvironment_succeeds_witness :
  ∃ w',
    deleteEnvironment alice 2%positive world2 = (Ok tt, w') ∧
    environments w' = delete 2%positive (environments world2) ∧
    S (length (members w' (env_projectId staging_row))) =
      length (members world2 (env_projectId staging_row)).
Proof.
  apply (deleteEnvironment_succeeds alice 2%positive world2 staging_row).
  - vm_compute. reflexivity.
  - compute_done.
  - reflexivity.
Defined.

(** ** One default at a time *)

Lemma defaults_after_promotion w' w i e p :
  environments w' = <[i:=e]> (environments (base true p w)) →
  env_projectId e = p → env_isDefault e = true →
  defaults w' p = [(i, e)].
Proof.
  intros Hw' Hp Hd. apply NoDup_singleton_eq.
  { apply NoDup_filter, NoDup_rows. }
  intros [j x]. rewrite elem_of_defaults. cbn [fst snd]. rewrite Hw'. split.
  - intros (Hj & Hq & Hx). destruct (decide (j = i)) as [->|Hne].
    + rewrite lookup_insert_eq in Hj. congruence.
    + rewrite lookup_insert_ne, base_lookup in Hj by done.
      apply fmap_Some in Hj as (y & _ & ->).
      unfold prisma.updateMany_row in Hq, Hx. by case_decide.
  - intros [= -> ->]. by rewrite lookup_insert_eq.
Qed.

(** X4.  When [createEnvironment] succeeds with [isDefault = true], the
    environment created is the default of its project and the only one:
    the earlier default, if there was one, is a regular environment
    now. *)
Theorem createEnvironment_sole_default user dto projectId w r w' :
  createEnvironment user dto projectId w = (Ok r, w') →
  ce_isDefault dto = Some true →
  defaults w' projectId = [r].
Proof.
  intros Hc Hdto. apply createEnvironment_inv in Hc. cbn zeta in Hc.
  destruct Hc as (p & _ & _ & _ & -> & ->). rewrite Hdto.
  apply (defaults_after_promotion _ w);
    [reflexivity|reflexivity|cbn; by rewrite Hdto].
Qed.

Lemma createEnvironment_sole_default_witness :
  ∃ r w',
    createEnvironment alice (mkCreateEnvironment "prod" None (Some true))
      7%positive world2 = (Ok r, w') ∧
    defaults world2 7%positive = [(1%positive, dev_row)] ∧
    defaults w' 7%positive = [r] ∧ r.1 = 3%positive.
Proof.
  destruct (createEnvironment alice
              (mkCreateEnvironment "prod" None (Some true)) 7%positive world2)
    as [[r|err] w'] eqn:Hc; [|vm_compute in Hc; discriminate].
  exists r, w'. split_and!; [done|vm_compute; reflexivity| |].
  - by apply (createEnvironment_sole_default _ _ _ _ _ _ Hc).
  - vm_compute in Hc. by injection Hc as <- _.
Defined.

(** X5.  When [updateEnvironment] succeeds with [isDefault = true], the
    environment updated is the default of its project and the only
    one. *)
Theorem updateEnvironment_sole_default user dto id w r w' :
  updateEnvironment user dto id w = (Ok r, w') →
  ue_isDefault dto = Some true →
  defaults w' (env_projectId r.2) = [r].
Proof.
  intros Hc Hdto. apply updateEnvironment_inv in Hc. cbn zeta in Hc.
  destruct Hc as (old & _ & _ & _ & _ & -> & ->). rewrite Hdto.
  apply (defaults_after_promotion _ w);
    [reflexivity|reflexivity|cbn; by rewrite Hdto].
Qed.

Lemma updateEnvironment_sole_default_witness :
  ∃ r w',
    updateEnvironment alice (mkUpdateEnvironment None None (Some true))
      2%positive world2 = (Ok r, w') ∧
    defaults world2 7%positive = [(1%positive, dev_row)] ∧
    defaults w' (env_projectId r.2) = [r] ∧
    r.1 = 2%positive ∧ env_projectId r.2 = 7%positive.
Proof.
  destruct (updateEnvironment alice
              (mkUpdateEnvironment None None (Some true)) 2%positive world2)
    as [[r|err] w'] eqn:Hc; [|vm_compute in Hc; discriminate].
  exists r, w'. split_and!; [done|vm_compute; reflexivity| | |].
  - by apply (updateEnvironment_sole_default _ _ _ _ _ _ Hc).
  - vm_compute in Hc. by injection Hc as <- _.
  - vm_compute in Hc. by injection Hc as <- _.
Defined.

(** X6.  [makeAllNonDefault], run as a statement, reports the number of
    environments of the project and leaves the project without default.
    It removes and adds no row; it leaves the name, the description, the
    creation time, the project and the last updater of every row as they
    were, and the rows of other projects untouched. *)
Theorem makeAllNonDefault_clears projectId w :
  ∃ w',
    prisma.run_op (makeAllNonDefault projectId) w =
      (Ok (BatchPayload (length (members w projectId))), w') ∧
    defaults w' projectId = [] ∧
    (∀ j, environments w' !! j = None ↔ environments w !! j = None) ∧
    ∀ j e, environments w !! j = Some e →
      ∃ e', environments w' !! j = Some e' ∧
        env_name e' = env_name e ∧
        env_description e' = env_description e ∧
        env_createdAt e' = env_createdAt e ∧
        env_projectId e' = env_projectId e ∧
        env_lastUpdatedById e' = env_lastUpdatedById e ∧
        (env_projectId e ≠ projectId → e' = e).
Proof.
  exists (cleared projectId w). split_and!.
  - reflexivity.
  - apply elem_of_nil_inv. intros [j x] (Hj & Hq & Hx)%elem_of_defaults.
    cbn [fst snd] in *.
    change (cleared projectId w) with (base true projectId w) in Hj.
    rewrite base_lookup in Hj. apply fmap_Some in Hj as (y & _ & ->).
    unfold prisma.updateMany_row in Hq, Hx. by case_decide.
  - intros j. change (cleared projectId w) with (base true projectId w).
    rewrite base_lookup. apply fmap_None.
  - intros j e Hj. change (cleared projectId w) with (base true projectId w).
    rewrite base_lookup, Hj. eexists. split; [reflexivity|].
    unfold prisma.updateMany_row. case_decide; split_and!; done.
Qed.

(** X7.  [environmentExists] reads and never writes.  What it returns is a
    stored environment of the project carrying the name; it returns
    nothing exactly when no environment of the project carries the name,
    whatever the environments of other projects are called. *)
Theorem environmentExists_finds name projectId w :
  ∃ found,
    environmentExists name projectId w = (Ok found, w) ∧
    match found with
    | Some r =>
        environments w !! r.1 = Some r.2 ∧ env_name r.2 = name ∧
        env_projectId r.2 = projectId
    | None =>
        ∀ j e, environments w !! j = Some e →
               env_projectId e = projectId → env_name e ≠ name
    end.
Proof.
  eexists. split; [apply environmentExists_run|].
  destruct (head _) as [r|] eqn:Hh.
  - apply head_Some_elem_of, list_elem_of_filter in Hh as [[Hn Hp] Hin].
    by apply rows_lookup in Hin.
  - intros j e Hj Hp Hn.
    assert (is_Some (head (filter (named name projectId) (rows w)))) as [x Hx].
    { apply exists_is_Some. eauto. }
    congruence.
Qed.

(** ** What a call leaves alone *)

(** The table after a call, in one of three shapes. *)
Lemma perform_shape c w :
  perform c w = w ∨
  (∃ i e,
     environments (perform c w) =
       <[i:=e]> (environments
                   (base (call_promotes c) (env_projectId e) w)) ∧
     call_project c w = Some (env_projectId e) ∧
     match environments w !! i with
     | None => call_target c = None
     | Some old =>
         call_target c = Some i ∧ env_projectId old = env_projectId e
     end) ∨
  (∃ i old,
     environments (perform c w) = delete i (environments w) ∧
     environments w !! i = Some old ∧ call_target c = Some i ∧
     call_project c w = Some (env_projectId old)).
Proof.
  destruct c as [u d p|u d i|u i]; cbn [call_promotes call_target].
  - destruct (create_effect u d p w) as [?|(i & e & Hw' & Hnew & Hp & Hd)];
      [by left|].
    right. left. exists i, e. rewrite Hp, Hnew. by split_and!.
  - destruct (update_effect u d i w)
      as [?|(old & e & Hold & Hw' & Hp & Hd)]; [by left|].
    right. left. exists i, e. rewrite Hp, Hold. cbn. rewrite Hold.
    by split_and!.
  - destruct (delete_effect u i w) as [?|(old & Hold & Hd & Hw')];
      [by left|].
    right. right. exists i, old. cbn. rewrite Hold. by split_and!.
Qed.

(** X8.  A call changes nothing in the projects it does not work on: a
    row of another project is in the table after the call exactly when it
    was in it before, whether the call succeeds or fails. *)
Theorem other_projects_untouched c w j e :
  call_project c w ≠ Some (env_projectId e) →
  environments (perform c w) !! j = Some e ↔ environments w !! j = Some e.
Proof.
  intros Hother.
  destruct (perform_shape c w)
    as [->|[(i & x & -> & Hp & Hi)|(i & old & -> & Hold & _ & Hp)]];
    [done| |].
  - assert (env_projectId e ≠ env_projectId x) as Hne by congruence.
    destruct (decide (j = i)) as [->|Hji].
    + rewrite lookup_insert_eq. split; [congruence|].
      intros Hj. rewrite Hj in Hi. destruct Hi as [_ Hi]. congruence.
    + rewrite lookup_insert_ne, base_lookup by done. split.
      * intros (y & Hy & ->)%fmap_Some. rewrite Hy. f_equal.
        rewrite touched_projectId in Hne. destruct (call_promotes c); [|done].
        unfold prisma.updateMany_row. by rewrite decide_False.
      * intros ->. cbn. f_equal. destruct (call_promotes c); [|done].
        unfold prisma.updateMany_row. by rewrite decide_False.
  - destruct (decide (j = i)) as [->|Hji].
    + rewrite lookup_delete_eq. split; [done|]. congruence.
    + by rewrite lookup_delete_ne.
Qed.

Lemma other_projects_untouched_witness :
  let c := CreateCall alice (mkCreateEnvironment "dev" None (Some true))
             8%positive in
  (createEnvironment alice (mkCreateEnvironment "dev" None (Some true))
     8%positive world_frontend).1 =
    Ok (3%positive,
        mkEnvironment "dev" None 4 4 true (Some 1%positive) 8%positive) ∧
  environments (perform c world_frontend) !! 1%positive = Some dev_row.
Proof.
  cbn zeta. split; [vm_compute; reflexivity|].
  apply (other_projects_untouched
           (CreateCall alice (mkCreateEnvironment "dev" None (Some true))
              8%positive) world_frontend 1%positive dev_row).
  - cbn. discriminate.
  - vm_compute. reflexivity.
Defined.

(** X9.  Whatever a call does, an environment it does not name stays in
    the table with its name, its description, its creation time, its
    project and its last updater; and it is never made the default. *)
Theorem bystander_kept c w j e :
  environments w !! j = Some e →
  call_target c ≠ Some j →
  ∃ e', environments (perform c w) !! j = Some e' ∧
    env_name e' = env_name e ∧
    env_description e' = env_description e ∧
    env_createdAt e' = env_createdAt e ∧
    env_projectId e' = env_projectId e ∧
    env_lastUpdatedById e' = env_lastUpdatedById e ∧
    (env_isDefault e' = true → env_isDefault e = true).
Proof.
  intros Hj Htarget.
  destruct (perform_shape c w)
    as [->|[(i & x & -> & Hp & Hi)|(i & old & -> & Hold & Ht & Hp)]].
  - exists e. by split_and!.
  - assert (j ≠ i) as Hji.
    { intros ->. rewrite Hj in Hi. destruct Hi as [Hi _]. congruence. }
    rewrite lookup_insert_ne, base_lookup, Hj by done.
    eexists. split; [reflexivity|].
    destruct (call_promotes c); [|by split_and!].
    unfold prisma.updateMany_row. case_decide; by split_and!.
  - assert (j ≠ i) as Hji by congruence.
    rewrite lookup_delete_ne by done. exists e. by split_and!.
Qed.

Lemma bystander_kept_witness :
  ∃ e', environments
          (perform (UpdateCall alice
                      (mkUpdateEnvironment (Some "qa") None (Some true))
                      2%positive) world2) !! 1%positive = Some e' ∧
    env_name e' = env_name dev_row ∧
    env_description e' = env_description dev_row ∧
    env_createdAt e' = env_createdAt dev_row ∧
    env_projectId e' = env_projectId dev_row ∧
    env_lastUpdatedById e' = env_lastUpdatedById dev_row ∧
    (env_isDefault e' = true → env_isDefault dev_row = true).
Proof.
  apply (bystander_kept
           (UpdateCall alice (mkUpdateEnvironment (Some "qa") None (Some true))
              2%positive) world2 1%positive dev_row).
  - vm_compute. reflexivity.
  - cbn. discriminate.
Defined.

(** X10.  A call that does not carry [isDefault = true] writes no row but
    the one it names: every other environment is stored after the call
    exactly as before. *)
Theorem bystander_unchanged c w j e :
  call_promotes c = false →
  environments w !! j = Some e →
  call_target c ≠ Some j →
  environments (perform c w) !! j = Some e.
Proof.
  intros Hpromotes Hj Htarget.
  destruct (perform_shape c w)
    as [->|[(i & x & -> & Hp & Hi)|(i & old & -> & Hold & Ht & Hp)]];
    [done| |].
  - assert (j ≠ i) as Hji.
    { intros ->. rewrite Hj in Hi. destruct Hi as [Hi _]. congruence. }
    by rewrite lookup_insert_ne, base_lookup, Hj, Hpromotes.
  - assert (j ≠ i) as Hji by congruence. by rewrite lookup_delete_ne.
Qed.

Lemma bystander_unchanged_witness :
  environments
    (perform (UpdateCall alice
                (mkUpdateEnvironment (Some "qa") (Some "quality") None)
                2%positive) world2) !! 1%positive = Some dev_row.
Proof.
  apply (bystander_unchanged
           (UpdateCall alice
              (mkUpdateEnvironment (Some "qa") (Some "quality") None)
              2%positive) world2 1%positive dev_row).
  - reflexivity.
  - vm_compute. reflexivity.
  - cbn. discriminate.
Defined.

(** X11.  [updateEnvironment] neither adds nor removes nor moves an
    environment: after the call, successful or not, every key holds an
    environment exactly when it did before, of the same project and with
    the same creation time. *)
Theorem updateEnvironment_keeps_membership user dto id w j :
  let w' := (updateEnvironment user dto id w).2 in
  (λ e, (env_projectId e, env_createdAt e)) <$> environments w' !! j =
  (λ e, (env_projectId e, env_createdAt e)) <$> environments w !! j.
Proof.
  cbn zeta.
  destruct (updateEnvironment user dto id w) as [[r|err] w'] eqn:Hu;
    apply updateEnvironment_inv in Hu; [|by subst].
  cbn zeta in Hu. destruct Hu as (old & Hold & _ & _ & _ & -> & ->).
  cbn [snd dispatched set_in_flight set_events tick set_environments
       environments].
  destruct (decide (j = id)) as [->|Hne].
  - by rewrite lookup_insert_eq, Hold.
  - rewrite lookup_insert_ne, base_lookup by done.
    destruct (environments w !! j) as [e|]; [|done]. cbn.
    destruct (default false (ue_isDefault dto)); [|done].
    unfold prisma.updateMany_row. by case_decide.
Qed.

(** ** Calls that fail *)

(** X12.  [createEnvironment] and [deleteEnvironment] write nothing when
    they throw: the world after a failing call is the world before it,
    also when it is the insert that fails after [makeAllNonDefault] has
    run in the same transaction. *)
Theorem create_delete_atomic user w :
  (∀ dto projectId,
     match createEnvironment user dto projectId w with
     | (Err _, w') => w' = w
     | (Ok _, _) => True
     end) ∧
  (∀ id,
     match deleteEnvironment user id w with
     | (Err _, w') => w' = w
     | (Ok _, _) => True
     end).
Proof.
  split.
  - intros dto projectId.
    destruct (createEnvironment user dto projectId w) as [[r|err] w'] eqn:Hc;
      [done|]. by apply createEnvironment_inv in Hc.
  - intros id.
    destruct (deleteEnvironment user id w) as [[r|err] w'] eqn:Hc; [done|].
    by apply deleteEnvironment_inv in Hc.
Qed.

(** Dan may create environments but has no account: his insert fails on
    the foreign key after [makeAllNonDefault] has run, and "dev" is still
    the default. *)
Example rollback_keeps_default :
  createEnvironment dan (mkCreateEnvironment "prod" None (Some true))
    7%positive world3 = (Err InternalError, world3) ∧
  defaults world3 7%positive = [(1%positive, dev_row)].
Proof. split; vm_compute; reflexivity. Qed.

(** ** Calls in sequence *)

Lemma deleteEnvironment_run user id w old :
  environments w !! id = Some old →
  DELETE_ENVIRONMENT ∈ effective w user.1 (env_projectId old) →
  env_isDefault old = false →
  deleteEnvironment user id w =
    (Ok tt,
     dispatched (deleted_event user (id, old))
       (set_events (fmap (prisma.forget_environment id))
          (set_environments (delete id) w))).
Proof.
  intros Hold Hauth Hd. unfold deleteEnvironment.
  erewrite bind_ok by (by apply getEnvironmentWithAuthority_ok).
  cbn [fst snd]. rewrite run_bind, run_throw_if, Hd.
  erewrite bind_ok by (by apply environment_delete_run).
  by rewrite createEvent_run.
Qed.

Lemma defaults_singleton w i e p :
  environments w !! i = Some e →
  env_projectId e = p → env_isDefault e = true →
  (∀ j x, j ≠ i → environments w !! j = Some x → env_projectId x = p →
          env_isDefault x = false) →
  defaults w p = [(i, e)].
Proof.
  intros Hi Hp Hd Hothers. apply NoDup_singleton_eq.
  { apply NoDup_filter, NoDup_rows. }
  intros [j x]. rewrite elem_of_defaults. cbn [fst snd]. split.
  - intros (Hj & Hq & Hx). destruct (decide (j = i)) as [->|Hne];
      [congruence|]. rewrite (Hothers j x Hne Hj Hq) in Hx. done.
  - by intros [= -> ->].
Qed.

(** X13.  An environment created as a regular one can be deleted again by
    anyone who may delete in the project, and the environment table is
    then the table from before the creation. *)
Theorem create_then_delete user dto projectId w r w1 deleter :
  createEnvironment user dto projectId w = (Ok r, w1) →
  default false (ce_isDefault dto) = false →
  DELETE_ENVIRONMENT ∈ effective w deleter.1 projectId →
  ∃ w2,
    deleteEnvironment deleter r.1 w1 = (Ok tt, w2) ∧
    environments w2 = environments w.
Proof.
  intros Hc Hflag Hauth.
  apply createEnvironment_inv in Hc. cbn zeta in Hc.
  destruct Hc as (p & _ & _ & _ & -> & ->). rewrite Hflag in *.
  cbn [base fst] in *.
  set (i := fresh (dom (environments w) ∪ issued w)) in *.
  set (e := prisma.create_row (create_data user dto projectId) (clock w)) in *.
  set (w1 := dispatched _ _).
  assert (environments w !! i = None) as Hnew.
  { apply not_elem_of_dom. intros Hin.
    apply (is_fresh (dom (environments w) ∪ issued w)).
    by apply elem_of_union_l. }
  assert (environments w1 !! i = Some e) as Hi by apply lookup_insert_eq.
  rewrite (deleteEnvironment_run deleter i w1 e Hi); [|done|].
  - eexists. split; [reflexivity|]. cbn. by apply delete_insert_id.
  - cbn. by rewrite Hflag.
Qed.

Lemma create_then_delete_witness :
  ∃ r w1 w2,
    createEnvironment alice (mkCreateEnvironment "prod" None None) 7%positive
      world2 = (Ok r, w1) ∧
    deleteEnvironment alice r.1 w1 = (Ok tt, w2) ∧
    environments w2 = environments world2.
Proof.
  destruct (createEnvironment alice (mkCreateEnvironment "prod" None None)
              7%positive world2) as [[r|err] w1] eqn:Hc;
    [|vm_compute in Hc; discriminate].
  destruct (create_then_delete alice _ 7%positive world2 r w1 alice Hc)
    as (w2 & Hd & Henv).
  - reflexivity.
  - compute_done.
  - by exists r, w1, w2.
Defined.

(** X14.  Once an environment has been created, a second creation under
    the same name in the same project fails with [Conflict], whoever asks
    for it and whatever the rest of the payload is, and changes
    nothing. *)
Theorem create_twice user dto projectId w r w1 user2 dto2 :
  createEnvironment user dto projectId w = (Ok r, w1) →
  CREATE_ENVIRONMENT ∈ effective w user2.1 projectId →
  ce_name dto2 = ce_name dto →
  createEnvironment user2 dto2 projectId w1 = (Err Conflict, w1).
Proof.
  intros Hc Hauth Hname.
  apply createEnvironment_inv in Hc. cbn zeta in Hc.
  destruct Hc as (p & Hp & _ & _ & -> & ->).
  set (b := base _ projectId w).
  set (i := fresh (dom (environments b) ∪ issued b)).
  set (e := prisma.create_row (create_data user dto projectId) (clock b)).
  set (w1 := dispatched _ _).
  assert (projects w1 !! projectId = Some p) as Hp1.
  { cbn. subst b. by rewrite base_projects. }
  assert (CREATE_ENVIRONMENT ∈ effective w1 user2.1 projectId) as Hauth1.
  { unfold effective in *. cbn. subst b. by rewrite base_grants. }
  unfold createEnvironment.
  erewrite bind_ok by (by apply getProjectWithAuthority_ok).
  erewrite bind_ok by apply environmentExists_run.
  rewrite bool_decide_eq_true_2; [done|].
  apply exists_is_Some. exists i, e. split_and!; [|by rewrite Hname|done].
  cbn. apply lookup_insert_eq.
Qed.

Lemma create_twice_witness :
  ∃ r w1,
    createEnvironment alice dev_dto 7%positive world0 = (Ok r, w1) ∧
    createEnvironment alice (mkCreateEnvironment "dev" (Some "again") None)
      7%positive w1 = (Err Conflict, w1).
Proof.
  destruct (createEnvironment alice dev_dto 7%positive world0)
    as [[r|err] w1] eqn:Hc; [|vm_compute in Hc; discriminate].
  exists r, w1. split; [done|].
  apply (create_twice alice dev_dto 7%positive world0 r w1 alice _ Hc).
  - compute_done.
  - reflexivity.
Defined.

(** X15.  A default environment becomes deletable by promoting another
    environment of its project: after a successful [updateEnvironment]
    with [isDefault = true] on that other environment, deleting the former
    default succeeds, and the promoted environment is the project's
    default, and the only one. *)
Theorem promote_then_delete user dto other w r w1 former row deleter :
  environments w !! former = Some row →
  updateEnvironment user dto other w = (Ok r, w1) →
  ue_isDefault dto = Some true →
  former ≠ other →
  env_projectId row = env_projectId r.2 →
  DELETE_ENVIRONMENT ∈ effective w deleter.1 (env_projectId row) →
  ∃ w2,
    deleteEnvironment deleter former w1 = (Ok tt, w2) ∧
    environments w2 !! former = None ∧
    defaults w2 (env_projectId row) = [r].
Proof.
  intros Hrow Hu Hdto Hne Hproj Hauth.
  apply updateEnvironment_inv in Hu. cbn zeta in Hu.
  destruct Hu as (old & Hold & _ & _ & _ & -> & ->).
  rewrite Hdto in *. cbn [default snd fst] in *.
  set (b := base true (env_projectId old) w) in *.
  set (e := prisma.update_row old (update_data user dto old) (clock b)) in *.
  set (w1 := dispatched _ _).
  assert (env_projectId e = env_projectId old) as He by done.
  set (row' := prisma.updateMany_row (env_projectId old) false (clock w) row).
  assert (environments w1 !! former = Some row') as Hformer.
  { change (environments w1) with (<[other:=e]> (environments b)).
    rewrite lookup_insert_ne by done. subst b.
    by rewrite base_lookup, Hrow. }
  assert (env_projectId row = env_projectId old) as Hro
    by (rewrite Hproj; exact He).
  assert (env_projectId row' = env_projectId row ∧ env_isDefault row' = false)
    as [Hp' Hd'].
  { subst row'. unfold prisma.updateMany_row.
    by rewrite (decide_True _ _ Hro). }
  rewrite (deleteEnvironment_run deleter former w1 row' Hformer).
  - eexists. split; [reflexivity|]. split; [cbn; apply lookup_delete_eq|].
    apply defaults_singleton.
    + change (delete former (<[other:=e]> (environments b)) !! other
              = Some e).
      rewrite lookup_delete_ne, lookup_insert_eq by done. done.
    + congruence.
    + cbn. by rewrite Hdto.
    + intros j x Hj Hx Hq.
      change (delete former (<[other:=e]> (environments b)) !! j = Some x)
        in Hx.
      apply lookup_delete_Some in Hx as [_ Hx].
      rewrite lookup_insert_ne in Hx by done. subst b.
      rewrite base_lookup in Hx. apply fmap_Some in Hx as (y & _ & ->).
      unfold prisma.updateMany_row in *. case_decide; [done|congruence].
  - rewrite Hp'. exact Hauth.
  - done.
Qed.

Lemma promote_then_delete_witness :
  ∃ r w1 w2,
    updateEnvironment alice (mkUpdateEnvironment None None (Some true))
      2%positive world2 = (Ok r, w1) ∧
    deleteEnvironment alice 1%positive world2 =
      (Err InvalidOperation, world2) ∧
    deleteEnvironment alice 1%positive w1 = (Ok tt, w2) ∧
    environments w2 !! 1%positive = None ∧
    defaults w2 (env_projectId dev_row) = [r].
Proof.
  destruct (updateEnvironment alice
              (mkUpdateEnvironment None None (Some true)) 2%positive world2)
    as [[r|err] w1] eqn:Hu; [|vm_compute in Hu; discriminate].
  destruct (promote_then_delete alice
              (mkUpdateEnvironment None None (Some true)) 2%positive world2
              r w1 1%positive dev_row alice) as (w2 & Hd & Hgone & Hdef).
  - vm_compute. reflexivity.
  - exact Hu.
  - reflexivity.
  - discriminate.
  - vm_compute in Hu. injection Hu as <- _. reflexivity.
  - compute_done.
  - exists r, w1, w2. by split_and!.
Defined.

(** ** Names within a project *)

Lemma updateEnvironment_ok_free user dto id w r w' :
  updateEnvironment user dto id w = (Ok r, w') →
  ∀ j e, environments w !! j = Some e → j ≠ id →
         env_projectId e = env_projectId r.2 → env_name e ≠ env_name r.2.
Proof.
  intros Hu. pose proof Hu as Hinv. apply updateEnvironment_inv in Hinv.
  cbn zeta in Hinv. destruct Hinv as (old & Hold & Hauth & Hc & Hg & Hr & _).
  unfold updateEnvironment in Hu.
  rewrite run_bind, (updateEnvironment_ops_run _ _ _ _ _ Hold Hauth), Hc, Hg
    in Hu.
  unfold updateEnvironment_commit, update_ops in Hu. rewrite run_bind in Hu.
  destruct (prisma.transaction _ w) as [[rs|err] w1] eqn:Ht; [|done].
  apply transaction_with_clear in Ht as (res & Hop & _).
  cbn [prisma.run_op] in Hop. apply environment_update_inv in Hop.
  cbn zeta in Hop. destruct Hop as (old' & Hold' & _ & _ & _ & Hfree).
  rewrite base_lookup, Hold in Hold'. injection Hold' as <-.
  rewrite update_row_touched, touched_projectId in Hfree.
  intros j e Hj Hne Hp Hn. subst r. cbn [snd] in Hp, Hn.
  eapply (unique_violation_false_inv _ _ _ _ j) in Hfree.
  - apply Hfree. rewrite touched_name. exact Hn.
  - rewrite base_lookup, Hj. reflexivity.
  - congruence.
  - rewrite touched_projectId. exact Hp.
Qed.

Lemma perform_shape_names c w :
  perform c w = w ∨
  (∃ i e clear p,
     environments (perform c w) = <[i:=e]> (environments (base clear p w)) ∧
     ∀ j x, environments w !! j = Some x → j ≠ i →
            env_projectId x = env_projectId e → env_name x ≠ env_name e) ∨
  (∃ i, environments (perform c w) = delete i (environments w)).
Proof.
  destruct c as [u d p|u d i|u i]; cbn [perform].
  - destruct (createEnvironment u d p w) as [[r|err] w'] eqn:Hc;
      apply createEnvironment_inv in Hc; [|by left].
    right. left. cbn zeta in Hc. destruct Hc as (pr & _ & _ & Hfree & -> & ->).
    eexists _, _, _, _. split; [reflexivity|].
    intros j x Hj _ Hp. by apply (Hfree j x Hj).
  - destruct (updateEnvironment u d i w) as [[r|err] w'] eqn:Hc; [|left].
    + right. left. pose proof (updateEnvironment_ok_free _ _ _ _ _ _ Hc) as Hf.
      apply updateEnvironment_inv in Hc. cbn zeta in Hc.
      destruct Hc as (old & _ & _ & _ & _ & -> & ->).
      eexists _, _, _, _. split; [reflexivity|]. exact Hf.
    + by apply updateEnvironment_inv in Hc.
  - destruct (delete_effect u i w) as [?|(old & _ & _ & Hw')]; [by left|].
    right. right. by exists i.
Qed.

Lemma perform_unique_names c w :
  unique_names w → unique_names (perform c w).
Proof.
  intros Hw.
  destruct (perform_shape_names c w)
    as [->|[(i & e & clear & p & Hw' & Hfree)|(i & Hw')]]; [done| |].
  - assert (∀ j x, j ≠ i → environments (perform c w) !! j = Some x →
              ∃ y, environments w !! j = Some y ∧
                   env_projectId x = env_projectId y ∧
                   env_name x = env_name y) as Hback.
    { intros j x Hne Hj. rewrite Hw', lookup_insert_ne, base_lookup in Hj
        by done.
      apply fmap_Some in Hj as (y & Hy & ->). exists y.
      by rewrite touched_projectId, touched_name. }
    assert (environments (perform c w) !! i = Some e) as Hi
      by (rewrite Hw'; apply lookup_insert_eq).
    intros j1 j2 x1 x2 H1 H2 Hp Hn.
    destruct (decide (j1 = i)) as [->|Hn1], (decide (j2 = i)) as [->|Hn2].
    + done.
    + exfalso. assert (x1 = e) as -> by congruence.
      destruct (Hback j2 x2 Hn2 H2) as (y & Hy & Hyp & Hyn).
      apply (Hfree j2 y Hy Hn2); congruence.
    + exfalso. assert (x2 = e) as -> by congruence.
      destruct (Hback j1 x1 Hn1 H1) as (y & Hy & Hyp & Hyn).
      apply (Hfree j1 y Hy Hn1); congruence.
    + destruct (Hback j1 x1 Hn1 H1) as (y1 & Hy1 & Hyp1 & Hyn1).
      destruct (Hback j2 x2 Hn2 H2) as (y2 & Hy2 & Hyp2 & Hyn2).
      apply (Hw j1 j2 y1 y2 Hy1 Hy2); congruence.
  - intros j1 j2 x1 x2 H1 H2. rewrite Hw' in H1, H2.
    apply lookup_delete_Some in H1 as [_ H1], H2 as [_ H2]. by apply Hw.
Qed.

(** X16.  No sequence of calls gives two environments of a project the
    same name: when the names are unique within each project before, they
    are unique after any completed sequence of [createEnvironment],
    [updateEnvironment] and [deleteEnvironment] calls.  For the empty name,
    which the check of [updateEnvironment] lets through, it is the unique
    constraint of the table that refuses the write. *)
Theorem names_stay_unique cs w :
  unique_names w → unique_names (perform_all cs w).
Proof.
  revert w. induction cs as [|c cs IH]; intros w Hw; [done|].
  cbn. by apply IH, perform_unique_names.
Qed.

Lemma names_stay_unique_witness :
  unique_names
    (perform_all
       [CreateCall alice blank_dto 7%positive;
        CreateCall alice staging_dto 7%positive;
        UpdateCall alice rename_blank 2%positive;
        UpdateCall alice (mkUpdateEnvironment (Some "staging") None None)
          1%positive;
        DeleteCall alice 2%positive]
       world0).
Proof.
  apply (names_stay_unique _ world0).
  intros i j ei ej Hi.
  change (environments world0) with (∅ : gmap positive Environment) in Hi.
  by rewrite lookup_empty in Hi.
Defined.

(** ** Pages of a listing *)

Lemma getEnvironmentsOfProject_run user projectId page limit sort order
    search w p f o :
  projects w !! projectId = Some p →
  READ_ENVIRONMENT ∈ effective w user.1 projectId →
  parse_field sort = Some f →
  parse_order order = Some o →
  getEnvironmentsOfProject user projectId page limit sort order search w =
    (Ok (include_lastUpdatedBy w <$>
           take limit
             (drop (page * limit)
                (merge_sort (ordered (collation_key (backend w)) f o)
                   (prisma.scanned projectId search (page * limit) limit
                      w)))), w).
Proof.
  intros Hp Hauth Hf Ho. unfold getEnvironmentsOfProject.
  erewrite bind_ok by (by apply getProjectWithAuthority_ok).
  unfold prisma.environment_findMany. by rewrite Hf, Ho.
Qed.

(** Without ties the order of the listing does not depend on the order in
    which the query meets the rows. *)
Lemma listing_canonical key f o projectId search skip take w :
  no_ties key f (filter (listed projectId search) (rows w)) →
  merge_sort (ordered key f o)
    (prisma.scanned projectId search skip take w) =
  merge_sort (ordered key f o) (filter (listed projectId search) (rows w)).
Proof.
  intros Hties. apply (Sorted_unique_strong (ordered key f o)).
  - intros a b Ha Hb Hab Hba.
    rewrite merge_sort_Permutation in Ha, Hb. unfold prisma.scanned in Ha.
    rewrite merge_sort_Permutation in Ha. apply Hties; [done|done|].
    unfold ordered in Hab, Hba.
    destruct o; rewrite (field_compare_antisym key f b a) in *;
      by destruct (field_compare key f a b).
  - apply (Sorted_merge_sort _).
  - apply (Sorted_merge_sort _).
  - rewrite !merge_sort_Permutation. unfold prisma.scanned.
    by rewrite merge_sort_Permutation.
Qed.

(** The key is the row: sorted by [id], a listing has no ties. *)
Lemma no_ties_by_id key projectId search w :
  no_ties key by_id (filter (listed projectId search) (rows w)).
Proof.
  intros [i a] [j b] [_ Ha%rows_lookup]%list_elem_of_filter
    [_ Hb%rows_lookup]%list_elem_of_filter Heq.
  cbn in *. apply Pos.compare_eq in Heq as ->. congruence.
Qed.

Lemma page_of_window user projectId sort order search w f :
  parse_field sort = Some f →
  no_ties (collation_key (backend w)) f
    (filter (listed projectId search) (rows w)) →
  ∃ all : list (Entity Environment),
    ∀ page limit,
      page_of (getEnvironmentsOfProject user projectId page limit sort order
                 search w) =
      include_lastUpdatedBy w <$> take limit (drop (page * limit) all).
Proof.
  intros Hf Hties. unfold getEnvironmentsOfProject, page_of.
  destruct (getProjectWithAuthority user.1 projectId READ_ENVIRONMENT w)
    as [[x|err] w1] eqn:Hg.
  - pose proof Hg as [-> _]%getProjectWithAuthority_inv.
    unfold prisma.environment_findMany. rewrite Hf.
    destruct (parse_order order) as [o|].
    + eexists. intros page limit. rewrite run_bind, Hg. cbn.
      by rewrite (listing_canonical _ _ _ _ _ _ _ _ Hties).
    + exists []. intros page limit. rewrite run_bind, Hg. cbn.
      by rewrite drop_nil, take_nil.
  - exists []. intros page limit. rewrite run_bind, Hg. cbn.
    by rewrite drop_nil, take_nil.
Qed.

Lemma windows_concatenate {A B} (g : A → B) (all : list A) limit n :
  mjoin ((λ k, g <$> take limit (drop (k * limit) all)) <$> seq 0 n) =
  g <$> take (n * limit) all.
Proof.
  induction n as [|n IH]; [done|].
  rewrite seq_S, fmap_app, join_app, IH. cbn [fmap list_fmap mjoin list_join].
  rewrite app_nil_r, <- fmap_app, take_take_drop. do 2 f_equal. lia.
Qed.

(** X17.  Pages fit together when the sort column tells the environments
    of the listing apart: the pages [0] to [n - 1], one after the other,
    are then the listing's first page of [n * limit] entries, in the same
    order; no entry is skipped and none comes twice between one page and
    the next.  Each page is a query of its own, and the order among
    environments that are equal on the column is the database's choice
    query by query; the column [id] has no equal entries. *)
Theorem pages_concatenate user projectId limit sort order search w n f :
  parse_field sort = Some f →
  no_ties (collation_key (backend w)) f
    (filter (listed projectId search) (rows w)) →
  mjoin ((λ page,
            page_of (getEnvironmentsOfProject user projectId page limit sort
                       order search w)) <$> seq 0 n) =
  page_of (getEnvironmentsOfProject user projectId 0 (n * limit) sort order
             search w).
Proof.
  intros Hf Hties.
  destruct (page_of_window user projectId sort order search w f Hf Hties)
    as [all Hall].
  rewrite Hall, Nat.mul_0_l, drop_0.
  rewrite <- (windows_concatenate (include_lastUpdatedBy w) all limit n).
  f_equal. apply list_fmap_ext. intros _ page _. apply Hall.
Qed.

Lemma pages_concatenate_witness :
  let w := on_backend (mkBackend id turning_rank [] []) world2 in
  mjoin ((λ page,
            page_of (getEnvironmentsOfProject alice 7%positive page 1 "id"
                       "desc" "" w)) <$> seq 0 2) =
  page_of (getEnvironmentsOfProject alice 7%positive 0 (2 * 1) "id" "desc"
             "" w).
Proof.
  cbn zeta.
  apply (pages_concatenate alice 7%positive 1 "id" "desc" ""
           (on_backend (mkBackend id turning_rank [] []) world2) 2 by_id).
  - reflexivity.
  - apply no_ties_by_id.
Defined.

(** With ties the pages need not fit.  All the environments of a project
    are equal on the column [projectId].  On a database that meets the
    rows in one order for the first page and in the reverse order for the
    next, the two pages of one entry of [world2] both hold "dev", and
    "staging" is on neither of them. *)
Example pages_overlap :
  let w := on_backend (mkBackend id turning_rank [] []) world2 in
  let page (n : nat) :=
    (λ x : Entity Environment * option (Entity User), env_name x.1.2) <$>
      page_of (getEnvironmentsOfProject alice 7%positive n 1 "projectId"
                 "asc" "" w) in
  page 0%nat = ["dev"] ∧ page 1%nat = ["dev"] ∧ page 2%nat = [].
Proof. cbn zeta. split_and!; vm_compute; reflexivity. Qed.

(** X18.  The size of a page: a listing that succeeds returns
    [min limit (m - page * limit)] entries, where [m] is the number of
    environments of the project whose name matches the [LIKE] pattern
    [%search%] ([listed]); so the search ["_"] counts every environment
    with a name that is not empty.  A page past the end and a page of
    limit [0] are empty, not errors. *)
Theorem getEnvironmentsOfProject_size user projectId page limit sort order
    search w p f o :
  projects w !! projectId = Some p →
  READ_ENVIRONMENT ∈ effective w user.1 projectId →
  parse_field sort = Some f →
  parse_order order = Some o →
  ∃ page_rows,
    getEnvironmentsOfProject user projectId page limit sort order search w =
      (Ok page_rows, w) ∧
    length page_rows =
      (limit `min`
       (length (filter (listed projectId search) (rows w)) - page * limit))%nat.
Proof.
  intros Hp Hauth Hf Ho. eexists. split.
  - by apply (getEnvironmentsOfProject_run _ _ _ _ _ _ _ _ p f o).
  - rewrite length_fmap, length_take, length_drop.
    rewrite (Permutation_length (merge_sort_Permutation _ _)).
    unfold prisma.scanned.
    by rewrite (Permutation_length (merge_sort_Permutation _ _)).
Qed.

Lemma getEnvironmentsOfProject_size_witness :
  ∃ page_rows,
    getEnvironmentsOfProject alice 7%positive 0 10 "name" "asc" "_" world2 =
      (Ok page_rows, world2) ∧
    length page_rows = 2%nat.
Proof.
  destruct (getEnvironmentsOfProject_size alice 7%positive 0 10 "name" "asc"
              "_" world2 (mkProject "backend") by_name asc)
    as (page_rows & Hrun & Hlen).
  - vm_compute. reflexivity.
  - compute_done.
  - reflexivity.
  - reflexivity.
  - exists page_rows. split; [exact Hrun|]. rewrite Hlen.
    vm_compute. reflexivity.
Defined.

(** X19.  With the empty search string, page [0] and a limit that is at
    least the number of environments of the project, a listing that
    succeeds returns every environment of the project, each once. *)
Theorem getEnvironmentsOfProject_all user projectId limit sort order w p f o :
  projects w !! projectId = Some p →
  READ_ENVIRONMENT ∈ effective w user.1 projectId →
  parse_field sort = Some f →
  parse_order order = Some o →
  (length (members w projectId) ≤ limit)%nat →
  ∃ page_rows,
    getEnvironmentsOfProject user projectId 0 limit sort order "" w =
      (Ok page_rows, w) ∧
    page_rows.*1 ≡ₚ members w projectId.
Proof.
  intros Hp Hauth Hf Ho Hlimit. eexists. split.
  - by apply (getEnvironmentsOfProject_run _ _ _ _ _ _ _ _ p f o).
  - assert (filter (listed projectId "") (rows w) = members w projectId)
      as Hm.
    { unfold members. apply list_filter_iff. intros r. unfold listed.
      rewrite name_contains_empty. tauto. }
    assert (prisma.scanned projectId "" 0 limit w ≡ₚ members w projectId)
      as Hscan.
    { unfold prisma.scanned. by rewrite merge_sort_Permutation, Hm. }
    rewrite <- list_fmap_compose. rewrite Nat.mul_0_l, drop_0.
    rewrite take_ge
      by (by rewrite (Permutation_length (merge_sort_Permutation _ _)),
               (Permutation_length Hscan)).
    rewrite (list_fmap_ext (fst ∘ include_lastUpdatedBy w) id) by done.
    rewrite list_fmap_id, merge_sort_Permutation. apply Hscan.
Qed.

Lemma getEnvironmentsOfProject_all_witness :
  ∃ page_rows,
    getEnvironmentsOfProject alice 7%positive 0 2 "createdAt" "desc" ""
      world2 = (Ok page_rows, world2) ∧
    page_rows.*1 ≡ₚ members world2 7%positive.
Proof.
  apply (getEnvironmentsOfProject_all alice 7%positive 2 "createdAt" "desc"
           world2 (mkProject "backend") by_createdAt desc).
  - vm_compute. reflexivity.
  - compute_done.
  - reflexivity.
  - reflexivity.
  - vm_compute. lia.
Defined.

(** ** Why a call fails *)

(** X20.  [updateEnvironment] throws [InvalidOperation] only for the last
    environment: the payload carries [isDefault = false], the environment
    is the default one and its project has no other.  It throws
    [Conflict] only when the payload carries a non-empty name which is the
    environment's own or that of an environment of the same project. *)
Theorem updateEnvironment_failure_causes user dto id w w' :
  (updateEnvironment user dto id w = (Err InvalidOperation, w') →
   ∃ old, environments w !! id = Some old ∧
     ue_isDefault dto = Some false ∧ env_isDefault old = true ∧
     length (members w (env_projectId old)) = 1%nat) ∧
  (updateEnvironment user dto id w = (Err Conflict, w') →
   ∃ old name, environments w !! id = Some old ∧
     ue_name dto = Some name ∧ name ≠ "" ∧
     ∃ j e, environments w !! j = Some e ∧
       env_projectId e = env_projectId old ∧ env_name e = name).
Proof.
  assert (∀ err, updateEnvironment user dto id w = (Err err, w') →
            err = InvalidOperation ∨ err = Conflict →
            ∃ old, environments w !! id = Some old ∧
              (if name_conflict dto old w then err = Conflict
               else last_environment_guard dto old w = true ∧
                    err = InvalidOperation)) as Hcases.
  { intros err Hu Herr. unfold updateEnvironment in Hu.
    rewrite run_bind in Hu.
    destruct (getEnvironmentWithAuthority user.1 id UPDATE_ENVIRONMENT w)
      as [[[i old]|e] w1] eqn:Hg;
      pose proof Hg as [-> Hg']%getEnvironmentWithAuthority_inv.
    - cbn in Hg'. destruct Hg' as (-> & Hold & Hauth). exists old.
      split; [done|].
      rewrite (updateEnvironment_ops_run _ _ _ _ _ Hold Hauth) in Hu.
      destruct (name_conflict dto old w); [by injection Hu as <- _|].
      destruct (last_environment_guard dto old w); [by injection Hu as <- _|].
      apply (updateEnvironment_commit_inv _ _ _ _ _ _ _ Hold) in Hu as [-> _].
      by destruct Herr.
    - unfold updateEnvironment_ops in Hu.
      rewrite (bind_err _ _ _ _ _ Hg) in Hu. injection Hu as <- _.
      destruct Hg' as [->| ->]; by destruct Herr. }
  split; intros Hu.
  - destruct (Hcases _ Hu) as (old & Hold & Hc); [by left|]. exists old.
    destruct (name_conflict dto old w); [done|]. destruct Hc as [Hg _].
    unfold last_environment_guard in Hg.
    apply andb_prop in Hg as [[H1 H2]%andb_prop H3].
    apply bool_decide_eq_true_1 in H1, H3. by split_and!.
  - destruct (Hcases _ Hu) as (old & Hold & Hc); [by right|].
    destruct (name_conflict dto old w) eqn:Hn; [|by destruct Hc].
    unfold name_conflict in Hn.
    destruct (ue_name dto) as [name|] eqn:Hname; [|done].
    apply andb_prop in Hn as [Ht Hn]. exists old, name. split_and!; try done.
    { intros ->. done. }
    apply orb_prop in Hn as [Hn|Hn]; apply bool_decide_eq_true_1 in Hn.
    + exists id, old. by split_and!.
    + apply exists_is_Some in Hn as (j & e & Hj & He & Hp). eauto.
Qed.

Lemma updateEnvironment_failure_causes_witness :
  ∃ old, environments world1 !! 1%positive = Some old ∧
    ue_isDefault (mkUpdateEnvironment None None (Some false)) = Some false ∧
    env_isDefault old = true ∧
    length (members world1 (env_projectId old)) = 1%nat.
Proof.
  apply (updateEnvironment_failure_causes alice
           (mkUpdateEnvironment None None (Some false)) 1%positive world1
           world1).
  vm_compute. reflexivity.
Defined.

(** X21.  [createEnvironment] throws [Conflict] only when an environment
    of the project carries the requested name, and [deleteEnvironment]
    throws [InvalidOperation] only when the environment is the default
    one. *)
Theorem create_delete_failure_causes user w w' :
  (∀ dto projectId,
     createEnvironment user dto projectId w = (Err Conflict, w') →
     ∃ j e, environments w !! j = Some e ∧ env_projectId e = projectId ∧
            env_name e = ce_name dto) ∧
  (∀ id,
     deleteEnvironment user id w = (Err InvalidOperation, w') →
     ∃ old, environments w !! id = Some old ∧ env_isDefault old = true).
Proof.
  split.
  - intros dto projectId Hc. unfold createEnvironment in Hc.
    rewrite run_bind in Hc.
    destruct (getProjectWithAuthority _ _ _ w) as [[x|e] w1] eqn:Hg;
      apply getProjectWithAuthority_inv in Hg as [-> Hg].
    + rewrite run_bind, environmentExists_run, run_bind, run_throw_if in Hc.
      case_bool_decide as Hex.
      * apply exists_is_Some in Hex as (j & e & Hj & Hn & Hp). eauto.
      * rewrite run_bind in Hc.
        destruct (prisma.transaction _ w) as [[rs|e] w1] eqn:Ht.
        -- rewrite run_bind in Hc.
           destruct (last_row rs w1) as [[r|e] w2] eqn:Hl; [done|].
           apply last_row_inv in Hl as [_ ->]. done.
        -- apply transaction_err_kind in Ht as ->. done.
    + injection Hc as -> _. by destruct Hg.
  - intros id Hd. unfold deleteEnvironment in Hd. rewrite run_bind in Hd.
    destruct (getEnvironmentWithAuthority _ _ _ w) as [[[i old]|e] w1] eqn:Hg;
      apply getEnvironmentWithAuthority_inv in Hg as [-> Hg].
    + cbn in Hg. destruct Hg as (-> & Hold & _). exists old. split; [done|].
      cbn [fst snd] in Hd. rewrite run_bind, run_throw_if in Hd.
      destruct (env_isDefault old); [done|]. rewrite run_bind in Hd.
      rewrite (environment_delete_run _ _ _ Hold) in Hd. done.
    + injection Hd as -> _. by destruct Hg.
Qed.

(** ** Reading back *)

(** X22.  What a call returns is what [getEnvironment] reads afterwards:
    the environment [createEnvironment] or [updateEnvironment] returned is
    the one a caller who may read it gets under its key, and after a
    successful [deleteEnvironment] the key is not found. *)
Theorem read_your_writes user reader w :
  (∀ dto projectId r w',
     createEnvironment user dto projectId w = (Ok r, w') →
     READ_ENVIRONMENT ∈ effective w reader.1 projectId →
     getEnvironment reader r.1 w' = (Ok r, w')) ∧
  (∀ dto id r w',
     updateEnvironment user dto id w = (Ok r, w') →
     READ_ENVIRONMENT ∈ effective w reader.1 (env_projectId r.2) →
     getEnvironment reader id w' = (Ok r, w')) ∧
  (∀ id w',
     deleteEnvironment user id w = (Ok tt, w') →
     getEnvironment reader id w' = (Err NotFound, w')).
Proof.
  split_and!.
  - intros dto projectId r w' Hc Hauth.
    apply createEnvironment_inv in Hc. cbn zeta in Hc.
    destruct Hc as (p & _ & _ & _ & -> & ->). unfold getEnvironment.
    apply getEnvironmentWithAuthority_ok.
    + cbn. apply lookup_insert_eq.
    + unfold effective in *. cbn. by rewrite base_grants.
  - intros dto id r w' Hu Hauth.
    apply updateEnvironment_inv in Hu. cbn zeta in Hu.
    destruct Hu as (old & _ & _ & _ & _ & -> & ->). unfold getEnvironment.
    apply getEnvironmentWithAuthority_ok.
    + cbn. apply lookup_insert_eq.
    + unfold effective in *. cbn in *. by rewrite base_grants.
  - intros id w' Hd. apply deleteEnvironment_inv in Hd.
    destruct Hd as (old & _ & _ & _ & ->).
    unfold getEnvironment, getEnvironmentWithAuthority.
    rewrite run_bind, run_gets. cbn. by rewrite lookup_delete_eq.
Qed.

Lemma create_delete_failure_causes_witness :
  (∃ j e, environments world2 !! j = Some e ∧ env_projectId e = 7%positive ∧
          env_name e = ce_name staging_dto) ∧
  (∃ old, environments world2 !! 1%positive = Some old ∧
          env_isDefault old = true).
Proof.
  destruct (create_delete_failure_causes alice world2 world2)
    as [Hcreate Hdelete].
  split.
  - apply (Hcreate staging_dto 7%positive). vm_compute. reflexivity.
  - apply (Hdelete 1%positive). vm_compute. reflexivity.
Defined.

Lemma read_your_writes_witness :
  ∃ r w',
    updateEnvironment alice (mkUpdateEnvironment (Some "qa") None None)
      2%positive world2 = (Ok r, w') ∧
    getEnvironment alice 2%positive w' = (Ok r, w') ∧
    env_name r.2 = "qa".
Proof.
  destruct (updateEnvironment alice
              (mkUpdateEnvironment (Some "qa") None None) 2%positive world2)
    as [[r|err] w'] eqn:Hu; [|vm_compute in Hu; discriminate].
  exists r, w'. split; [done|]. split.
  - destruct (read_your_writes alice alice world2) as (_ & Hupdate & _).
    apply (Hupdate _ _ _ _ Hu).
    vm_compute in Hu. injection Hu as <- _. compute_done.
  - vm_compute in Hu. by injection Hu as <- _.
Defined.

(** ** A project without default *)

Lemma members_insert_same w' w0 i e old q :
  environments w' = <[i:=e]> (environments w0) →
  environments w0 !! i = Some old →
  env_projectId e = env_projectId old →
  length (members w' q) = length (members w0 q).
Proof.
  intros Hw Hold Hp. unfold members, rows.
  rewrite Hw, <- insert_delete_eq.
  rewrite (map_to_list_insert _ _ _ (lookup_delete_eq _ _)).
  rewrite <- (map_to_list_delete _ _ _ Hold), !filter_cons. cbn [snd].
  rewrite Hp. by case_decide.
Qed.

(** X23.  The default environment of a project that has other
    environments can be made a regular one, and the project is then left
    without default: when [updateEnvironment] succeeds with
    [isDefault = false] on the default environment of a project with at
    most one default, the project has at least two environments afterwards
    and none of them is the default. *)
Theorem demotion_leaves_no_default user dto id w old r w' :
  environments w !! id = Some old →
  env_isDefault old = true →
  at_most_one_default w →
  ue_isDefault dto = Some false →
  updateEnvironment user dto id w = (Ok r, w') →
  defaults w' (env_projectId old) = [] ∧
  (2 ≤ length (members w' (env_projectId old)))%nat.
Proof.
  intros Hold Hd Hamo Hdto Hu.
  apply updateEnvironment_inv in Hu. cbn zeta in Hu.
  destruct Hu as (old' & Hold' & _ & _ & Hguard & -> & ->).
  assert (old' = old) as -> by congruence.
  rewrite Hdto in *. cbn [default base] in *.
  set (e := prisma.update_row old (update_data user dto old) (clock w)).
  set (w' := dispatched _ _).
  assert (environments w' = <[id:=e]> (environments w)) as Hw' by done.
  split.
  - apply elem_of_nil_inv. intros [j x] (Hj & Hq & Hx)%elem_of_defaults.
    cbn [fst snd] in *. rewrite Hw' in Hj.
    destruct (decide (j = id)) as [->|Hne].
    + rewrite lookup_insert_eq in Hj. injection Hj as <-.
      subst e. cbn in Hx. by rewrite Hdto in Hx.
    + rewrite lookup_insert_ne in Hj by done. apply Hne.
      apply (proj1 (at_most_one_default_alt w) Hamo (env_projectId old)).
      * by exists x.
      * by exists old.
  - rewrite (members_insert_same w' w id e old) by done.
    unfold last_environment_guard in Hguard. rewrite Hd in Hguard.
    rewrite bool_decide_eq_true_2 in Hguard by done. cbn [andb] in Hguard.
    apply bool_decide_eq_false_1 in Hguard.
    assert ((id, old) ∈ members w (env_projectId old)) as Hin
      by (by apply elem_of_members).
    fold (members w (env_projectId old)) in Hguard.
    destruct (members w (env_projectId old)) as [|a [|b l]]; cbn in *;
      [by apply elem_of_nil in Hin|done|lia].
Qed.

Lemma demotion_leaves_no_default_witness :
  ∃ r w',
    updateEnvironment alice (mkUpdateEnvironment None None (Some false))
      1%positive world2 = (Ok r, w') ∧
    defaults w' (env_projectId dev_row) = [] ∧
    (2 ≤ length (members w' (env_projectId dev_row)))%nat.
Proof.
  destruct (updateEnvironment alice
              (mkUpdateEnvironment None None (Some false)) 1%positive world2)
    as [[r|err] w'] eqn:Hu; [|vm_compute in Hu; discriminate].
  exists r, w'. split; [done|].
  apply (demotion_leaves_no_default alice
           (mkUpdateEnvironment None None (Some false)) 1%positive world2
           dev_row r w').
  - vm_compute. reflexivity.
  - reflexivity.
  - apply (perform_all_at_most_one
             [CreateCall alice dev_dto 7%positive;
              CreateCall alice staging_dto 7%positive] world0).
    intros p. vm_compute. lia.
  - reflexivity.
  - exact Hu.
Defined.
